(** * Merkle-Run: the instrumented execution core of [merklerun.py]

    A shallow embedding of the hash-chained event logger, the file, socket
    and process shims, the run orchestrator and the verifier of
    [src/merklerun.py], with the properties its specification states.

    Conventions of the embedding.
    - A Python [str] is a [string] whose characters are code points below
      256; a Python [bytes] value is a [string] whose characters are bytes.
      [str_encode] is UTF-8 on that range.
    - A float is kept as an integer number of microseconds ([JFloat]): these
      are the floats [round(x, 6)] yields, and the only ones the logger
      writes.
    - Python code that mutates the interpreter and may raise is written in
      the monad [M]: a function from the [World] to an outcome and the
      [World] left behind.  A raised exception keeps the effects made
      before it, as in Python. *)

From Stdlib Require Import ZArith List String Ascii Bool Lia Arith.
From Stdlib Require Import DecimalString DecimalZ.
Import ListNotations.
Local Open Scope string_scope.

(** ** SHA-256 (FIPS 180-4), the primitive behind [hashlib.sha256] *)

Module SHA256.
Local Open Scope Z_scope.

Definition mask32 : Z := 0xFFFFFFFF.
Definition add32 (x y : Z) : Z := Z.land (x + y) mask32.
Definition rotr (n x : Z) : Z :=
  Z.lor (Z.shiftr x n) (Z.land (Z.shiftl x (32 - n)) mask32).
Definition not32 (x : Z) : Z := Z.lxor x mask32.

Definition Ch (x y z : Z) : Z := Z.lxor (Z.land x y) (Z.land (not32 x) z).
Definition Maj (x y z : Z) : Z :=
  Z.lxor (Z.lxor (Z.land x y) (Z.land x z)) (Z.land y z).
Definition bsig0 (x : Z) : Z := Z.lxor (Z.lxor (rotr 2 x) (rotr 13 x)) (rotr 22 x).
Definition bsig1 (x : Z) : Z := Z.lxor (Z.lxor (rotr 6 x) (rotr 11 x)) (rotr 25 x).
Definition ssig0 (x : Z) : Z := Z.lxor (Z.lxor (rotr 7 x) (rotr 18 x)) (Z.shiftr x 3).
Definition ssig1 (x : Z) : Z := Z.lxor (Z.lxor (rotr 17 x) (rotr 19 x)) (Z.shiftr x 10).

(** The first sixty-four primes. *)
Definition primes : list Z :=
  [2; 3; 5; 7; 11; 13; 17; 19; 23; 29; 31; 37; 41; 43; 47; 53; 59; 61; 67; 71;
   73; 79; 83; 89; 97; 101; 103; 107; 109; 113; 127; 131; 137; 139; 149; 151;
   157; 163; 167; 173; 179; 181; 191; 193; 197; 199; 211; 223; 227; 229; 233;
   239; 241; 251; 257; 263; 269; 271; 277; 281; 283; 293; 307; 311].

(** Integer cube root by bisection: the largest [r] in [lo, hi) with
    [r^3 <= n]. *)
Fixpoint cube_root_in (fuel : nat) (lo hi n : Z) : Z :=
  match fuel with
  | O => lo
  | S f =>
      if hi - lo <=? 1 then lo
      else
        let mid := (lo + hi) / 2 in
        if mid * mid * mid <=? n then cube_root_in f mid hi n
        else cube_root_in f lo mid n
  end.

(** The round constants: the first thirty-two bits of the fractional
    parts of the cube roots of the primes. *)
Definition K : list Z :=
  map (fun p => Z.land (cube_root_in 64 0 (2 ^ 40) (p * 2 ^ 96)) mask32) primes.

(** Big-endian bytes of the low [8 * n] bits of [x]. *)
Fixpoint be_bytes (n : nat) (x : Z) : list Z :=
  match n with
  | O => []
  | S m => Z.land (Z.shiftr x (8 * Z.of_nat m)) 0xFF :: be_bytes m x
  end.

(** Message padding: a one bit, zeros up to 56 mod 64, the bit length. *)
Definition pad (msg : list Z) : list Z :=
  let len := Z.of_nat (List.length msg) in
  msg ++ [0x80] ++ repeat 0 (Z.to_nat ((55 - len) mod 64)) ++ be_bytes 8 (8 * len).

Fixpoint be_words (fuel : nat) (bs : list Z) : list Z :=
  match fuel, bs with
  | S f, b0 :: b1 :: b2 :: b3 :: rest =>
      (b0 * 16777216 + b1 * 65536 + b2 * 256 + b3) :: be_words f rest
  | _, _ => []
  end.

Definition at_ (l : list Z) (i : nat) : Z := nth i l 0.

(** The message schedule, grown from the block's sixteen words. *)
Fixpoint schedule (n : nat) (w : list Z) : list Z :=
  match n with
  | O => w
  | S m =>
      let t := List.length w in
      let x := add32 (add32 (ssig1 (at_ w (t - 2))) (at_ w (t - 7)))
                     (add32 (ssig0 (at_ w (t - 15))) (at_ w (t - 16))) in
      schedule m (w ++ [x])
  end.

Definition state : Type := (Z * Z * Z * Z * Z * Z * Z * Z)%type.

Definition round (s : state) (kw : Z * Z) : state :=
  let '(a, b, c, d, e, f, g, h) := s in
  let t1 := add32 (add32 (add32 h (bsig1 e)) (add32 (Ch e f g) (fst kw))) (snd kw) in
  let t2 := add32 (bsig0 a) (Maj a b c) in
  (add32 t1 t2, a, b, c, add32 d t1, e, f, g).

Definition compress (s : state) (block : list Z) : state :=
  let w := schedule 48 (be_words 16 block) in
  let '(a, b, c, d, e, f, g, h) := fold_left round (combine K w) s in
  let '(a0, b0, c0, d0, e0, f0, g0, h0) := s in
  (add32 a0 a, add32 b0 b, add32 c0 c, add32 d0 d,
   add32 e0 e, add32 f0 f, add32 g0 g, add32 h0 h).

Fixpoint blocks (fuel : nat) (bs : list Z) (s : state) : state :=
  match fuel, bs with
  | S f, _ :: _ => blocks f (skipn 64 bs) (compress s (firstn 64 bs))
  | _, _ => s
  end.

(** The initial hash value: the first thirty-two bits of the fractional
    parts of the square roots of the first eight primes. *)
Definition frac_sqrt (p : Z) : Z := Z.land (Z.sqrt (p * 2 ^ 64)) mask32.

Definition init : state :=
  (frac_sqrt 2, frac_sqrt 3, frac_sqrt 5, frac_sqrt 7,
   frac_sqrt 11, frac_sqrt 13, frac_sqrt 17, frac_sqrt 19).

Definition digest_words (msg : list Z) : list Z :=
  let p := pad msg in
  let '(a, b, c, d, e, f, g, h) := blocks (List.length p) p init in
  [a; b; c; d; e; f; g; h].

Definition hex_digit (d : Z) : ascii :=
  if d <? 10 then ascii_of_N (Z.to_N (48 + d)) else ascii_of_N (Z.to_N (87 + d)).

Fixpoint hex_of (n : nat) (x : Z) : string :=
  match n with
  | O => EmptyString
  | S m => String (hex_digit (Z.land (Z.shiftr x (4 * Z.of_nat m)) 0xF)) (hex_of m x)
  end.

Definition byte_values (b : string) : list Z :=
  map (fun c => Z.of_N (N_of_ascii c)) (list_ascii_of_string b).

(** [hashlib.sha256(b).hexdigest()]: sixty-four lowercase hex digits. *)
Definition hexdigest (b : string) : string :=
  String.concat EmptyString (map (hex_of 8) (digest_words (byte_values b))).

End SHA256.

(** ** Python values: the JSON-serialisable fragment *)

Definition str : Type := string.
Definition bytes : Type := string.

#[warnings="-register-all"]
Inductive json : Type :=
  | JNull
  | JBool (b : bool)
  | JInt (n : Z)
  | JFloat (micros : Z)
  | JStr (s : str)
  | JList (l : list json)
  | JObj (d : list (str * json)).

(** A [dict] with string keys, in insertion order. *)
Definition dict : Type := list (str * json).

Fixpoint assoc_get {V : Type} (d : list (str * V)) (k : str) : option V :=
  match d with
  | [] => None
  | (k', v) :: d' => if String.eqb k' k then Some v else assoc_get d' k
  end.

(** [d.get(k)] *)
Definition dict_get (d : dict) (k : str) : option json := assoc_get d k.

(** [d[k] = v]: an existing key keeps its place, a new one goes last. *)
Fixpoint dict_set (d : dict) (k : str) (v : json) : dict :=
  match d with
  | [] => [(k, v)]
  | (k', v') :: d' =>
      if String.eqb k' k then (k', v) :: d' else (k', v') :: dict_set d' k v
  end.

(** [{**d, **more}] *)
Definition dict_update (d more : dict) : dict :=
  fold_left (fun acc kv => dict_set acc (fst kv) (snd kv)) more d.

(** [None] for an absent key, as [d.get(k)] yields it. *)
Definition get_or_none (d : dict) (k : str) : json :=
  match dict_get d k with Some v => v | None => JNull end.

(** *** Python equality [==] on these values *)

Definition num_of (v : json) : option Z :=
  match v with
  | JBool b => Some (if b then 1000000 else 0)%Z
  | JInt n => Some (n * 1000000)%Z
  | JFloat m => Some m
  | _ => None
  end.

Fixpoint py_eq (x y : json) {struct x} : bool :=
  match x, y with
  | JNull, JNull => true
  | JStr s, JStr t => String.eqb s t
  | JList l, JList m =>
      (fix all2 (l m : list json) : bool :=
         match l, m with
         | [], [] => true
         | a :: l', b :: m' => py_eq a b && all2 l' m'
         | _, _ => false
         end) l m
  | JObj d, JObj e =>
      Nat.eqb (List.length d) (List.length e)
      && (fix sub (d : list (str * json)) : bool :=
            match d with
            | [] => true
            | (k, v) :: d' =>
                match dict_get e k with
                | Some v' => py_eq v v'
                | None => false
                end && sub d'
            end) d
  | _, _ =>
      match num_of x, num_of y with
      | Some a, Some b => Z.eqb a b
      | _, _ => false
      end
  end.

Definition py_ne (x y : json) : bool := negb (py_eq x y).

(** Truth value of a Python object, as [if x] takes it. *)
Definition truthy (v : json) : bool :=
  match v with
  | JNull => false
  | JBool b => b
  | JInt n => negb (Z.eqb n 0)
  | JFloat m => negb (Z.eqb m 0)
  | JStr s => negb (String.eqb s EmptyString)
  | JList l => match l with [] => false | _ => true end
  | JObj d => match d with [] => false | _ => true end
  end.

(** *** [json.dumps(v, sort_keys=True, separators=(",", ":"))] *)

Definition dquote : ascii := "034"%char.
Definition backslash : ascii := "092"%char.

Definition str_of_Z (n : Z) : string := NilZero.string_of_int (Z.to_int n).

Definition hex2 (n : N) : string :=
  SHA256.hex_of 2 (Z.of_N n).

(** One character under [ensure_ascii]: the short escapes, the [\u00xx]
    form for the rest outside space..tilde. *)
Definition escape_char (c : ascii) : string :=
  let n := N_of_ascii c in
  if Ascii.eqb c dquote then String backslash (String dquote EmptyString)
  else if Ascii.eqb c backslash then String backslash (String backslash EmptyString)
  else if N.eqb n 8 then "\b"
  else if N.eqb n 12 then "\f"
  else if N.eqb n 10 then "\n"
  else if N.eqb n 13 then "\r"
  else if N.eqb n 9 then "\t"
  else if (N.ltb n 32 || N.ltb 126 n)%bool then "\u00" ++ hex2 n
  else String c EmptyString.

Fixpoint escape_str (s : str) : string :=
  match s with
  | EmptyString => EmptyString
  | String c s' => escape_char c ++ escape_str s'
  end.

Definition quote_str (s : str) : string :=
  String dquote (escape_str s ++ String dquote EmptyString).

(** Drop the trailing zero digits of a digit string. *)
Fixpoint strip_zeros (s : string) : string :=
  match s with
  | EmptyString => EmptyString
  | String c s' =>
      match strip_zeros s' with
      | EmptyString => if Ascii.eqb c "0" then EmptyString else String c EmptyString
      | r => String c r
      end
  end.

Fixpoint zeros (n : nat) : string :=
  match n with O => EmptyString | S m => String "0" (zeros m) end.

(** [repr] of the float [m / 10^6] for [0 <= m]: exponent form below
    [1e-4], positional form with at least one decimal otherwise. *)
Definition float_repr_nonneg (m : Z) : string :=
  if Z.eqb m 0 then "0.0"
  else
    let ds := str_of_Z m in
    let n := String.length ds in
    if Nat.leb n 2 then
      let sig := strip_zeros ds in
      let mant :=
        match sig with
        | String c EmptyString => sig
        | String c rest => String c ("." ++ rest)
        | EmptyString => sig
        end in
      mant ++ "e-0" ++ str_of_Z (Z.of_nat (7 - n))
    else if Nat.leb n 6 then
      "0." ++ zeros (6 - n) ++ strip_zeros ds
    else
      let frac := strip_zeros (substring (n - 6) 6 ds) in
      substring 0 (n - 6) ds ++ "."
        ++ (match frac with EmptyString => "0" | _ => frac end).

Definition float_repr (m : Z) : string :=
  if Z.ltb m 0 then "-" ++ float_repr_nonneg (- m) else float_repr_nonneg m.

Fixpoint insert_sorted (kv : str * string) (l : list (str * string))
  : list (str * string) :=
  match l with
  | [] => [kv]
  | kv' :: l' =>
      if String.leb (fst kv') (fst kv) then kv' :: insert_sorted kv l'
      else kv :: kv' :: l'
  end.

(** Stable sort by key, as [sorted(d.items())] on distinct keys. *)
Definition sort_items (l : list (str * string)) : list (str * string) :=
  fold_left (fun acc kv => insert_sorted kv acc) l [].

Definition join (sep : string) (l : list string) : string := String.concat sep l.

Fixpoint json_dumps (v : json) : string :=
  match v with
  | JNull => "null"
  | JBool true => "true"
  | JBool false => "false"
  | JInt n => str_of_Z n
  | JFloat m => float_repr m
  | JStr s => quote_str s
  | JList l => "[" ++ join "," (map json_dumps l) ++ "]"
  | JObj d =>
      "{" ++ join ","
               (map (fun kv => quote_str (fst kv) ++ ":" ++ snd kv)
                    (sort_items
                       ((fix items (d : list (str * json)) : list (str * string) :=
                           match d with
                           | [] => []
                           | (k, x) :: d' => (k, json_dumps x) :: items d'
                           end) d)))
          ++ "}"
  end.

(** [str.encode()]: UTF-8 of a text whose code points are below 256. *)
Definition encode_char (c : ascii) : bytes :=
  let n := N_of_ascii c in
  if N.ltb n 128 then String c EmptyString
  else String (ascii_of_N (192 + N.shiftr n 6))
      (String (ascii_of_N (128 + N.land n 63)) EmptyString).

Fixpoint str_encode (s : str) : bytes :=
  match s with
  | EmptyString => EmptyString
  | String c s' => encode_char c ++ str_encode s'
  end.

(** [hashlib.sha256(b).hexdigest()] *)
Definition sha256_hex (b : bytes) : str := SHA256.hexdigest b.

(** Turns the apostrophes of a literal into double quotes. *)
Fixpoint dq (s : string) : string :=
  match s with
  | EmptyString => EmptyString
  | String c s' => String (if Ascii.eqb c "'" then dquote else c) (dq s')
  end.

(** ** Exceptions, objects and the interpreter state *)

(** An exception as the program can observe it: its class, the [repr] of
    its arguments, and whether the class derives from [Exception]
    ([SystemExit] and [KeyboardInterrupt] do not). *)
Record exn : Type := mkExn {
  exc_class : str;
  exc_args : str;
  exc_is_Exception : bool
}.

(** [repr(e)]: type and message, no traceback. *)
Definition repr_exn (e : exn) : str := exc_class e ++ "(" ++ exc_args e ++ ")".

Definition quoted (msg : str) : str := "'" ++ msg ++ "'".

Definition PermissionError (msg : str) : exn := mkExn "PermissionError" (quoted msg) true.
Definition TypeError (msg : str) : exn := mkExn "TypeError" (quoted msg) true.
Definition ValueError (msg : str) : exn := mkExn "ValueError" (quoted msg) true.
Definition KeyError (key : str) : exn := mkExn "KeyError" (quoted key) true.
Definition IndexError (msg : str) : exn := mkExn "IndexError" (quoted msg) true.
Definition AttributeError (msg : str) : exn := mkExn "AttributeError" (quoted msg) true.
Definition RecursionError : exn :=
  mkExn "RecursionError" (quoted "maximum recursion depth exceeded") true.
Definition FileNotFoundError (path : str) : exn :=
  mkExn "FileNotFoundError" ("2, 'No such file or directory: " ++ path ++ "'") true.
Definition FileExistsError (path : str) : exn :=
  mkExn "FileExistsError" ("17, 'File exists: " ++ path ++ "'") true.
Definition UnsupportedOperation (msg : str) : exn :=
  mkExn "UnsupportedOperation" (quoted msg) true.
Definition SystemExit (code : Z) : exn := mkExn "SystemExit" (str_of_Z code) false.
Definition KeyboardInterrupt : exn := mkExn "KeyboardInterrupt" EmptyString false.

(** The error the network shims raise on a denied operation: the
    program's policy violation. *)
Definition PolicyViolation : exn := PermissionError "network disabled by merkle-run".

Inductive outcome (A : Type) : Type :=
  | Ok (a : A)
  | Raised (e : exn).
Arguments Ok {A} a.
Arguments Raised {A} e.

(** A bytes-like object that is neither [bytes] nor [bytearray] (an
    [array.array], a [memoryview], ...), by what the program observes of
    it: the name of its type, [len(b)] (a number of items, not of bytes),
    [str(b)] and the bytes of its buffer. *)
Record buffer : Type := mkBuffer {
  buf_type : str;
  buf_len : Z;
  buf_str : str;
  buf_bytes : bytes
}.

(** What a script hands to [write] and [send]: text, [bytes] (or
    [bytearray]), or another bytes-like object. *)
Inductive payload : Type :=
  | PStr (s : str)
  | PBytes (b : bytes)
  | PBuffer (v : buffer).

(** The first argument of [Popen]: an argument list or a single command. *)
Inductive popen_args : Type :=
  | ArgList (l : list str)
  | ArgScalar (s : str).

(** The three process-wide capability bindings.  A shim remembers the
    implementation it replaced, as the closures of [patch_open],
    [patch_socket] and [patch_subprocess] do. *)
Inductive open_impl : Type :=
  | native_open (id : nat)
  | open_wrapper_of (original_open : open_impl).

Inductive socket_impl : Type :=
  | native_socket (id : nat)
  | SocketShim_of (allow_net : bool) (original_socket : socket_impl).

Inductive popen_impl : Type :=
  | native_Popen (id : nat)
  | PopenShim_of (original_popen : popen_impl).

(** *** The target script

    A script is the tree of its boundary calls: each call is answered by a
    value or by an exception, which the script may handle (by going on) or
    let escape ([Throw]). *)

Inductive value : Type :=
  | VNone
  | VInt (n : Z)
  | VBytes (b : bytes)
  | VObj (id : nat)
  | VStrs (l : list str).

Inductive call : Type :=
  | c_open (path mode : str)
  | c_write (h : nat) (b : payload)
  | c_writelines (h : nat) (lines : list payload)
  | c_close (h : nat)
  | c_socket
  | c_connect (s : nat) (host port : json)
  | c_send (s : nat) (data : payload)
  | c_recv (s : nat) (bufsize : Z)
  | c_Popen (args : popen_args)
  | c_get_argv
  | c_set_argv (argv : list str)
  | c_set_open (f : open_impl)
  | c_set_socket (f : socket_impl)
  | c_set_Popen (f : popen_impl).

Inductive Script : Type :=
  | Done
  | Throw (e : exn)
  | Do (c : call) (k : outcome value -> Script).

(** *** Objects and the world *)

Record rawfile : Type := mkRaw {
  f_path : str;
  f_mode : str;
  f_closed : bool
}.

(** The state of an [IOShim]; [_hasher] holds the bytes absorbed so far. *)
Record IOShim : Type := mkIOShim {
  _f : nat;
  _path : str;
  _mode : str;
  _written : Z;
  _hasher : bytes
}.

(** A socket object remembers the class it was created from. *)
Inductive obj : Type :=
  | FileObj (f : rawfile)
  | ShimObj (s : IOShim)
  | SockObj (cls : socket_impl).

(** Operations that reached the real system. *)
Inductive real_op : Type :=
  | r_open (path mode : str)
  | r_write (path : str) (b : bytes)
  | r_close (path : str)
  | r_socket
  | r_connect (host port : json)
  | r_send (b : bytes)
  | r_recv (bufsize : Z)
  | r_spawn (args : popen_args).

Definition event : Type := dict.

Record EventLogger : Type := mkLogger {
  start_wall : str;
  start_mono : Z;
  events : list event;
  prev_hash : str;
  seed : Z;
  allow_net : bool;
  env : dict
}.

Record World : Type := mkWorld {
  (* capability bindings and invocation arguments *)
  builtins_open : open_impl;
  socket_socket : socket_impl;
  subprocess_Popen : popen_impl;
  sys_argv : list str;
  (* the logger of the run in progress *)
  logger : EventLogger;
  (* objects created so far, by identifier *)
  objs : list obj;
  (* the clock: the n-th reading of time.monotonic(), in nanoseconds *)
  clock : nat -> Z;
  clock_reads : nat;
  (* environment *)
  utcnow : str;
  python_version : str;
  platform : str;
  cwd : str;
  fs : list (str * bytes);
  net_in : list bytes;
  has_numpy : bool;
  random_seed : option Z;
  numpy_seed : option Z;
  source : str -> Script;
  (* what reached the real system *)
  real_ops : list real_op
}.

(** *** The monad of Python code *)

Definition M (A : Type) : Type := World -> outcome A * World.

Definition ret {A} (a : A) : M A := fun w => (Ok a, w).
Definition raise {A} (e : exn) : M A := fun w => (Raised e, w).
Definition bind {A B} (m : M A) (k : A -> M B) : M B :=
  fun w => match m w with
           | (Ok a, w') => k a w'
           | (Raised e, w') => (Raised e, w')
           end.

Declare Scope py_scope.
Delimit Scope py_scope with py.
Notation "x <- m ;; k" := (bind m (fun x => k))
  (at level 61, m at next level, right associativity) : py_scope.
Notation "m ;; k" := (bind m (fun _ => k))
  (at level 61, right associativity) : py_scope.
Local Open Scope py_scope.

Definition get {A} (f : World -> A) : M A := fun w => (Ok (f w), w).
Definition modify (f : World -> World) : M unit := fun w => (Ok tt, f w).

(** [try: body  except Exception as e: handler e] *)
Definition try_except {A} (body : M A) (handler : exn -> M A) : M A :=
  fun w => match body w with
           | (Raised e, w') =>
               if exc_is_Exception e then handler e w' else (Raised e, w')
           | r => r
           end.

(** [try: body  finally: final]: [final] runs on every exit of [body]; an
    exception of [final] replaces the outcome. *)
Definition try_finally {A} (body : M A) (final : M unit) : M A :=
  fun w => match body w with
           | (r, w') =>
               match final w' with
               | (Ok _, w'') => (r, w'')
               | (Raised e, w'') => (Raised e, w'')
               end
           end.

(** Field updates of the world. *)
Definition set_builtins_open (f : open_impl) (w : World) : World :=
  mkWorld f (socket_socket w) (subprocess_Popen w) (sys_argv w) (logger w) (objs w)
    (clock w) (clock_reads w) (utcnow w) (python_version w) (platform w) (cwd w)
    (fs w) (net_in w) (has_numpy w) (random_seed w) (numpy_seed w) (source w) (real_ops w).
Definition set_socket_socket (f : socket_impl) (w : World) : World :=
  mkWorld (builtins_open w) f (subprocess_Popen w) (sys_argv w) (logger w) (objs w)
    (clock w) (clock_reads w) (utcnow w) (python_version w) (platform w) (cwd w)
    (fs w) (net_in w) (has_numpy w) (random_seed w) (numpy_seed w) (source w) (real_ops w).
Definition set_subprocess_Popen (f : popen_impl) (w : World) : World :=
  mkWorld (builtins_open w) (socket_socket w) f (sys_argv w) (logger w) (objs w)
    (clock w) (clock_reads w) (utcnow w) (python_version w) (platform w) (cwd w)
    (fs w) (net_in w) (has_numpy w) (random_seed w) (numpy_seed w) (source w) (real_ops w).
Definition set_sys_argv (a : list str) (w : World) : World :=
  mkWorld (builtins_open w) (socket_socket w) (subprocess_Popen w) a (logger w) (objs w)
    (clock w) (clock_reads w) (utcnow w) (python_version w) (platform w) (cwd w)
    (fs w) (net_in w) (has_numpy w) (random_seed w) (numpy_seed w) (source w) (real_ops w).
Definition set_logger (l : EventLogger) (w : World) : World :=
  mkWorld (builtins_open w) (socket_socket w) (subprocess_Popen w) (sys_argv w) l (objs w)
    (clock w) (clock_reads w) (utcnow w) (python_version w) (platform w) (cwd w)
    (fs w) (net_in w) (has_numpy w) (random_seed w) (numpy_seed w) (source w) (real_ops w).
Definition set_objs (o : list obj) (w : World) : World :=
  mkWorld (builtins_open w) (socket_socket w) (subprocess_Popen w) (sys_argv w) (logger w) o
    (clock w) (clock_reads w) (utcnow w) (python_version w) (platform w) (cwd w)
    (fs w) (net_in w) (has_numpy w) (random_seed w) (numpy_seed w) (source w) (real_ops w).
Definition set_clock_reads (n : nat) (w : World) : World :=
  mkWorld (builtins_open w) (socket_socket w) (subprocess_Popen w) (sys_argv w) (logger w)
    (objs w) (clock w) n (utcnow w) (python_version w) (platform w) (cwd w)
    (fs w) (net_in w) (has_numpy w) (random_seed w) (numpy_seed w) (source w) (real_ops w).
Definition set_fs (f : list (str * bytes)) (w : World) : World :=
  mkWorld (builtins_open w) (socket_socket w) (subprocess_Popen w) (sys_argv w) (logger w)
    (objs w) (clock w) (clock_reads w) (utcnow w) (python_version w) (platform w) (cwd w)
    f (net_in w) (has_numpy w) (random_seed w) (numpy_seed w) (source w) (real_ops w).
Definition set_net_in (n : list bytes) (w : World) : World :=
  mkWorld (builtins_open w) (socket_socket w) (subprocess_Popen w) (sys_argv w) (logger w)
    (objs w) (clock w) (clock_reads w) (utcnow w) (python_version w) (platform w) (cwd w)
    (fs w) n (has_numpy w) (random_seed w) (numpy_seed w) (source w) (real_ops w).
Definition set_random_seed (s : option Z) (w : World) : World :=
  mkWorld (builtins_open w) (socket_socket w) (subprocess_Popen w) (sys_argv w) (logger w)
    (objs w) (clock w) (clock_reads w) (utcnow w) (python_version w) (platform w) (cwd w)
    (fs w) (net_in w) (has_numpy w) s (numpy_seed w) (source w) (real_ops w).
Definition set_numpy_seed (s : option Z) (w : World) : World :=
  mkWorld (builtins_open w) (socket_socket w) (subprocess_Popen w) (sys_argv w) (logger w)
    (objs w) (clock w) (clock_reads w) (utcnow w) (python_version w) (platform w) (cwd w)
    (fs w) (net_in w) (has_numpy w) (random_seed w) s (source w) (real_ops w).
Definition add_real_op (r : real_op) (w : World) : World :=
  mkWorld (builtins_open w) (socket_socket w) (subprocess_Popen w) (sys_argv w) (logger w)
    (objs w) (clock w) (clock_reads w) (utcnow w) (python_version w) (platform w) (cwd w)
    (fs w) (net_in w) (has_numpy w) (random_seed w) (numpy_seed w) (source w)
    (real_ops w ++ [r]).

(** ** The environment: clock, paths, files, network *)

Local Open Scope Z_scope.

(** [time.monotonic()] *)
Definition time_monotonic : M Z :=
  fun w => (Ok (clock w (clock_reads w)), set_clock_reads (S (clock_reads w)) w).

(** [round(rel, 6)] of [rel] nanoseconds, in microseconds; ties to even. *)
Definition round6 (ns : Z) : Z :=
  let q := ns / 1000 in
  let r := ns mod 1000 in
  if r <? 500 then q
  else if 500 <? r then q + 1
  else if Z.even q then q else q + 1.

(** [sub in s] *)
Definition contains (sub s : str) : bool :=
  match index 0 sub s with Some _ => true | None => false end.

(** [os.path.abspath] on paths that are already normalised. *)
Definition abspath_in (dir p : str) : str :=
  if prefix "/" p then p else dir ++ "/" ++ p.
Definition os_path_abspath (p : str) : M str := get (fun w => abspath_in (cwd w) p).
Definition os_path_exists (p : str) : M bool :=
  get (fun w => match assoc_get (fs w) p with Some _ => true | None => false end).

Fixpoint assoc_set {V : Type} (d : list (str * V)) (k : str) (v : V) : list (str * V) :=
  match d with
  | [] => [(k, v)]
  | (k', v') :: d' =>
      if String.eqb k' k then (k', v) :: d' else (k', v') :: assoc_set d' k v
  end.

Definition file_content (w : World) (p : str) : bytes :=
  match assoc_get (fs w) p with Some b => b | None => EmptyString end.

Definition len (s : string) : Z := Z.of_nat (String.length s).

Definition new_obj (o : obj) : M nat :=
  fun w => (Ok (List.length (objs w)), set_objs (objs w ++ [o]) w).
Definition get_obj (id : nat) : M obj :=
  fun w => match nth_error (objs w) id with
           | Some o => (Ok o, w)
           | None => (Raised (AttributeError "no such object"), w)
           end.

Fixpoint replace_nth {A : Type} (l : list A) (i : nat) (x : A) : list A :=
  match l, i with
  | [], _ => []
  | _ :: l', O => x :: l'
  | y :: l', S j => y :: replace_nth l' j x
  end.
Definition set_obj (id : nat) (o : obj) : M unit :=
  modify (fun w => set_objs (replace_nth (objs w) id o) w).

Definition mode_letters (mode : str) : nat :=
  List.length (filter (fun c => contains (String c EmptyString) "rwax")
                      (list_ascii_of_string mode)).

(** The unintercepted [open]. *)
Definition real_open (path mode : str) : M nat :=
  modify (add_real_op (r_open path mode)) ;;
  p <- os_path_abspath path ;;
  ex <- os_path_exists p ;;
  if negb (Nat.eqb (mode_letters mode) 1) then
    raise (ValueError "must have exactly one of create/read/write/append mode")
  else if (contains "r" mode && negb ex)%bool then raise (FileNotFoundError path)
  else if (contains "x" mode && ex)%bool then raise (FileExistsError path)
  else
    (if (contains "w" mode || contains "x" mode || negb ex)%bool
     then modify (fun w => set_fs (assoc_set (fs w) p EmptyString) w)
     else ret tt) ;;
    new_obj (FileObj (mkRaw p mode false)).

(** [f.write(b)] on a real file object. *)
Definition raw_write (f : rawfile) (b : payload) : M Z :=
  if f_closed f then raise (ValueError "I/O operation on closed file.")
  else if (contains "r" (f_mode f) && negb (contains "+" (f_mode f)))%bool
  then raise (UnsupportedOperation "not writable")
  else
    match b, contains "b" (f_mode f) with
    | PBytes d, true =>
        modify (fun w => add_real_op (r_write (f_path f) d)
                  (set_fs (assoc_set (fs w) (f_path f) (file_content w (f_path f) ++ d)%string) w)) ;;
        ret (len d)
    | PStr s, false =>
        modify (fun w => add_real_op (r_write (f_path f) (str_encode s))
                  (set_fs (assoc_set (fs w) (f_path f)
                             (file_content w (f_path f) ++ str_encode s)%string) w)) ;;
        ret (len s)
    | PBuffer v, true =>
        modify (fun w => add_real_op (r_write (f_path f) (buf_bytes v))
                  (set_fs (assoc_set (fs w) (f_path f)
                             (file_content w (f_path f) ++ buf_bytes v)%string) w)) ;;
        ret (len (buf_bytes v))
    | PBytes _, false => raise (TypeError "write() argument must be str, not bytes")
    | PBuffer v, false =>
        raise (TypeError ("write() argument must be str, not " ++ buf_type v))
    | PStr _, true => raise (TypeError "a bytes-like object is required, not str")
    end.

(** [f.close()] on a real file object. *)
Definition raw_close (id : nat) (f : rawfile) : M unit :=
  modify (add_real_op (r_close (f_path f))) ;;
  set_obj id (FileObj (mkRaw (f_path f) (f_mode f) true)).

(** ** event logger with merkle chain *)

Definition with_prev_hash (h : str) (L : EventLogger) : EventLogger :=
  mkLogger (start_wall L) (start_mono L) (events L) h (seed L) (allow_net L) (env L).
Definition with_events (evs : list event) (L : EventLogger) : EventLogger :=
  mkLogger (start_wall L) (start_mono L) evs (prev_hash L) (seed L) (allow_net L) (env L).

(** [EventLogger.__init__] *)
Definition EventLogger_init (seed : Z) (allow_net : bool) : M unit :=
  wall <- get utcnow ;;
  mono <- time_monotonic ;;
  version <- get python_version ;;
  plat <- get platform ;;
  dir <- get cwd ;;
  modify (set_logger
            (mkLogger (wall ++ "Z") mono [] (zeros 64) seed allow_net
               [("python_version", JStr version); ("platform", JStr plat);
                ("cwd", JStr dir)])).

(** [EventLogger._hash_dict] *)
Definition _hash_dict (d : dict) : str :=
  let payload := str_encode (json_dumps (JObj d)) in
  sha256_hex payload.

(** [EventLogger._chain] *)
Definition _chain (ev : event) : M str :=
  let h_event := _hash_dict ev in
  self <- get logger ;;
  let combined := str_encode (prev_hash self ++ h_event) in
  let h_chain := sha256_hex combined in
  modify (fun w => set_logger (with_prev_hash h_chain (logger w)) w) ;;
  ret h_chain.

(** [EventLogger.log] *)
Definition log (kind : str) (fields : dict) : M unit :=
  now <- time_monotonic ;;
  self <- get logger ;;
  let rel := now - start_mono self in
  let ev := dict_update [("t", JFloat (round6 rel)); ("kind", JStr kind)] fields in
  h <- _chain ev ;;
  let ev := dict_set ev "chain" (JStr h) in
  modify (fun w => set_logger (with_events (events (logger w) ++ [ev]) (logger w)) w).

(** [EventLogger.manifest] *)
Definition manifest : M json :=
  self <- get logger ;;
  let root := [("started_at_utc", JStr (start_wall self));
               ("seed", JInt (seed self));
               ("allow_net", JBool (allow_net self));
               ("env", JObj (env self));
               ("events", JList (map JObj (events self)))] in
  let root := dict_set root "root_hash"
                (JStr (_hash_dict [("events", JList (map JObj (events self)))])) in
  ret (JObj root).

(** ** monkeypatches for io/net/subprocess *)

(** Frames a chain of Python calls may use: [sys.getrecursionlimit()]. *)
Definition recursion_limit : nat := 1000.

(** The bytes a payload stands for: the encoding of text, the buffer of
    a bytes-like object. *)
Definition payload_bytes (b : payload) : bytes :=
  match b with PStr s => str_encode s | PBytes d => d | PBuffer v => buf_bytes v end.

(** [if isinstance(b, str): b = b.encode()] *)
Definition encoded (b : payload) : payload :=
  match b with PStr s => PBytes (str_encode s) | _ => b end.

(** [len(data)] *)
Definition data_len (data : payload) : Z :=
  match data with PStr s => len s | PBytes d => len d | PBuffer v => buf_len v end.

(** [type(b).__name__], as the error messages print it. *)
Definition payload_type (b : payload) : str :=
  match b with PStr _ => "str" | PBytes _ => "bytes" | PBuffer v => buf_type v end.

Definition absorb (n : Z) (b : bytes) (s : IOShim) : IOShim :=
  mkIOShim (_f s) (_path s) (_mode s) (_written s + n) (_hasher s ++ b)%string.

Definition writes_mode (mode : str) : bool :=
  (contains "w" mode || contains "a" mode || contains "x" mode)%bool.

(** [h.write(b)]: [IOShim.write] on a shim, the real write on a file. *)
Fixpoint obj_write (fuel : nat) (h : nat) (b : payload) {struct fuel} : M Z :=
  o <- get_obj h ;;
  match o with
  | FileObj f => raw_write f b
  | ShimObj self =>
      match fuel with
      | O => raise RecursionError
      | S fuel' =>
          (* support str and bytes *)
          let b := encoded b in
          set_obj h (ShimObj (absorb (data_len b) (payload_bytes b) self)) ;;
          obj_write fuel' (_f self) b
      end
  | SockObj _ => raise (AttributeError "write")
  end.

(** [IOShim.writelines]: everything goes through [write]. *)
Fixpoint writelines_loop (fuel : nat) (h : nat) (lines : list payload) (total : Z) : M Z :=
  match lines with
  | [] => ret total
  | line :: rest =>
      n <- obj_write fuel h line ;;
      writelines_loop fuel h rest (total + n)
  end.

(** [h.close()]: [IOShim.close] on a shim, the real close on a file. *)
Fixpoint obj_close (fuel : nat) (h : nat) {struct fuel} : M unit :=
  o <- get_obj h ;;
  match o with
  | FileObj f => raw_close h f
  | ShimObj self =>
      match fuel with
      | O => raise RecursionError
      | S fuel' =>
          try_finally
            (obj_close fuel' (_f self))
            (if writes_mode (_mode self) then
               path <- os_path_abspath (_path self) ;;
               log "file_write_close"
                 [("path", JStr path); ("bytes", JInt (_written self));
                  ("sha256", JStr (sha256_hex (_hasher self)))]
             else ret tt)
      end
  | SockObj _ => modify (fun w => w)
  end.

Definition IOShim_write := obj_write recursion_limit.
Definition IOShim_writelines (h : nat) (lines : list payload) : M Z :=
  writelines_loop recursion_limit h lines 0.
Definition IOShim_close := obj_close recursion_limit.

(** Reading a real file to its end in chunks of [size], as the loop of
    [hash_file] does; yields the byte count and the bytes hashed. *)
Fixpoint read_chunks (fuel : nat) (size : nat) (rest : bytes) (n : Z) (h : bytes)
  : Z * bytes :=
  match fuel with
  | O => (n, h)
  | S fuel' =>
      let chunk := substring 0 size rest in
      if String.eqb chunk EmptyString then (n, h)
      else read_chunks fuel' size
             (substring size (String.length rest - size) rest)
             (n + len chunk) (h ++ chunk)%string
  end.

(** [open(path, mode)] through the binding [f].  Under [open_wrapper] the
    call of [hash_file] goes through whatever [builtins.open] is bound to
    at that moment. *)
Fixpoint call_open (fuel : nat) (f : open_impl) (path mode : str) {struct fuel} : M nat :=
  match f with
  | native_open _ => real_open path mode
  | open_wrapper_of original_open =>
      match fuel with
      | O => raise RecursionError
      | S fuel' =>
          let hash_file (p : str) : M (Z * str) :=
            cur <- get builtins_open ;;
            rf <- call_open fuel' cur p "rb" ;;
            o <- get_obj rf ;;
            match o with
            | FileObj raw =>
                content <- get (fun w => file_content w (f_path raw)) ;;
                let '(size, h) :=
                  read_chunks (S (String.length content)) (1024 * 1024)%nat
                    content 0 EmptyString in
                raw_close rf raw ;;
                ret (size, sha256_hex h)
            | _ => raise (TypeError "object does not support the context manager protocol")
            end in
          abspath <- os_path_abspath path ;;
          ex <- os_path_exists abspath ;;
          (* on read, hash the current file content immediately *)
          (if (contains "r" mode && ex && contains "b" mode)%bool then
             r <- hash_file abspath ;;
             log "file_open_read"
               [("path", JStr abspath); ("mode", JStr mode);
                ("bytes", JInt (fst r)); ("sha256", JStr (snd r))]
           else if (contains "r" mode && ex && negb (contains "b" mode))%bool then
             r <- hash_file abspath ;;
             log "file_open_read"
               [("path", JStr abspath); ("mode", JStr mode);
                ("bytes", JInt (fst r)); ("sha256", JStr (snd r))]
           else
             log "file_open" [("path", JStr abspath); ("mode", JStr mode)]) ;;
          f <- call_open fuel' original_open path mode ;;
          (* if writing, wrap to collect hash of written bytes *)
          if writes_mode mode
          then new_obj (ShimObj (mkIOShim f path mode 0 EmptyString))
          else ret f
      end
  end.

(** [patch_open] *)
Definition patch_open : M open_impl :=
  original_open <- get builtins_open ;;
  modify (set_builtins_open (open_wrapper_of original_open)) ;;
  ret original_open.

(** The unintercepted socket operations. *)
Definition real_connect (host port : json) : M unit :=
  modify (add_real_op (r_connect host port)).
Definition real_send (data : payload) : M Z :=
  match data with
  | PBytes d => modify (add_real_op (r_send d)) ;; ret (len d)
  | PBuffer v => modify (add_real_op (r_send (buf_bytes v))) ;; ret (len (buf_bytes v))
  | PStr _ => raise (TypeError "a bytes-like object is required, not str")
  end.
Definition real_recv (bufsize : Z) : M bytes :=
  modify (add_real_op (r_recv bufsize)) ;;
  pending <- get net_in ;;
  match pending with
  | [] => ret EmptyString
  | d :: rest =>
      modify (set_net_in rest) ;;
      ret (substring 0 (Z.to_nat bufsize) d)
  end.

(** [SocketShim.connect]; [cls] is the class of the socket object. *)
Fixpoint sock_connect (cls : socket_impl) (host port : json) : M unit :=
  match cls with
  | native_socket _ => real_connect host port
  | SocketShim_of allow_net super =>
      (* block or log network according to policy *)
      if negb allow_net then
        log "net_block" [("host", host); ("port", port)] ;;
        raise (PermissionError "network disabled by merkle-run")
      else
        log "net_connect" [("host", host); ("port", port)] ;;
        sock_connect super host port
  end.

(** [data if isinstance(data, (bytes, bytearray)) else str(data).encode()] *)
Definition hashed_data (data : payload) : bytes :=
  match data with
  | PBytes d => d
  | PStr s => str_encode s
  | PBuffer v => str_encode (buf_str v)
  end.

(** [SocketShim.send] *)
Fixpoint sock_send (cls : socket_impl) (data : payload) : M Z :=
  match cls with
  | native_socket _ => real_send data
  | SocketShim_of allow_net super =>
      if negb allow_net then
        log "net_block_send" [("bytes", JInt (data_len data))] ;;
        raise (PermissionError "network disabled by merkle-run")
      else
        let sha := sha256_hex (hashed_data data) in
        log "net_send" [("bytes", JInt (data_len data)); ("sha256", JStr sha)] ;;
        sock_send super data
  end.

(** [SocketShim.recv] *)
Fixpoint sock_recv (cls : socket_impl) (bufsize : Z) : M bytes :=
  match cls with
  | native_socket _ => real_recv bufsize
  | SocketShim_of allow_net super =>
      if negb allow_net then
        log "net_block_recv" [("req", JInt bufsize)] ;;
        raise (PermissionError "network disabled by merkle-run")
      else
        data <- sock_recv super bufsize ;;
        let sha := sha256_hex data in
        log "net_recv" [("bytes", JInt (len data)); ("sha256", JStr sha)] ;;
        ret data
  end.

(** [patch_socket] *)
Definition patch_socket (allow_net : bool) : M socket_impl :=
  original_socket <- get socket_socket ;;
  modify (set_socket_socket (SocketShim_of allow_net original_socket)) ;;
  ret original_socket.

(** [PopenShim.__init__] *)
Fixpoint popen_init (cls : popen_impl) (args : popen_args) : M unit :=
  match cls with
  | native_Popen _ => modify (add_real_op (r_spawn args))
  | PopenShim_of super =>
      (* normalize args to a printable form *)
      let cmd := match args with ArgList l => l | ArgScalar s => [s] end in
      log "subprocess_spawn" [("cmd", JStr (join " " cmd))] ;;
      popen_init super args
  end.

(** [patch_subprocess] *)
Definition patch_subprocess : M popen_impl :=
  original_popen <- get subprocess_Popen ;;
  modify (set_subprocess_Popen (PopenShim_of original_popen)) ;;
  ret original_popen.

(** [seed_all]: python's prng, then numpy if present. *)
Definition seed_all (seed : Z) : M unit :=
  modify (set_random_seed (Some seed)) ;;
  log "rng_seed" [("lib", JStr "random"); ("seed", JInt seed)] ;;
  try_except
    (np <- get has_numpy ;;
     (if np then ret tt
      else raise (mkExn "ModuleNotFoundError" (quoted "No module named numpy") true)) ;;
     (if ((0 <=? seed) && (seed <? 4294967296))%bool
      then modify (set_numpy_seed (Some seed))
      else raise (ValueError "Seed must be between 0 and 2**32 - 1")) ;;
     log "rng_seed" [("lib", JStr "numpy"); ("seed", JInt seed)])
    (fun _ => log "rng_seed_skip" [("lib", JStr "numpy")]).

(** ** Running the target script *)

Definition perform (c : call) : M value :=
  match c with
  | c_open path mode =>
      f <- get builtins_open ;;
      h <- call_open recursion_limit f path mode ;;
      ret (VObj h)
  | c_write h b =>
      n <- obj_write recursion_limit h b ;; ret (VInt n)
  | c_writelines h lines =>
      o <- get_obj h ;;
      match o with
      | ShimObj _ => n <- IOShim_writelines h lines ;; ret (VInt n)
      | FileObj _ => writelines_loop recursion_limit h lines 0 ;; ret VNone
      | SockObj _ => raise (AttributeError "writelines")
      end
  | c_close h =>
      obj_close recursion_limit h ;; ret VNone
  | c_socket =>
      cls <- get socket_socket ;;
      modify (add_real_op r_socket) ;;
      h <- new_obj (SockObj cls) ;;
      ret (VObj h)
  | c_connect s host port =>
      o <- get_obj s ;;
      match o with
      | SockObj cls => sock_connect cls host port ;; ret VNone
      | _ => raise (AttributeError "connect")
      end
  | c_send s data =>
      o <- get_obj s ;;
      match o with
      | SockObj cls => n <- sock_send cls data ;; ret (VInt n)
      | _ => raise (AttributeError "send")
      end
  | c_recv s bufsize =>
      o <- get_obj s ;;
      match o with
      | SockObj cls => d <- sock_recv cls bufsize ;; ret (VBytes d)
      | _ => raise (AttributeError "recv")
      end
  | c_Popen args =>
      cls <- get subprocess_Popen ;;
      popen_init cls args ;; ret VNone
  | c_get_argv => a <- get sys_argv ;; ret (VStrs a)
  | c_set_argv a => modify (set_sys_argv a) ;; ret VNone
  | c_set_open f => modify (set_builtins_open f) ;; ret VNone
  | c_set_socket f => modify (set_socket_socket f) ;; ret VNone
  | c_set_Popen f => modify (set_subprocess_Popen f) ;; ret VNone
  end.

Fixpoint run_script (s : Script) : M unit :=
  match s with
  | Done => ret tt
  | Throw e => raise e
  | Do c k => fun w => let (r, w') := perform c w in run_script (k r) w'
  end.

(** [runpy.run_path(target, run_name="__main__")] *)
Definition runpy_run_path (target : str) : M unit :=
  s <- get (fun w => source w target) ;;
  run_script s.

(** ** core run/verify *)

Definition is_space (c : ascii) : bool :=
  let n := N_of_ascii c in
  ((N.leb 9 n && N.leb n 13) || (N.leb 28 n && N.leb n 32)
   || N.eqb n 133 || N.eqb n 160)%bool.

(** [s.split()] *)
Fixpoint split_ws (cur : str) (s : str) : list str :=
  match s with
  | EmptyString => if String.eqb cur EmptyString then [] else [cur]
  | String c s' =>
      if is_space c then
        (if String.eqb cur EmptyString then split_ws EmptyString s'
         else cur :: split_ws EmptyString s')
      else split_ws (cur ++ String c EmptyString)%string s'
  end.
Definition str_split (s : str) : list str := split_ws EmptyString s.

(** [[target] + (args_line.split() if args_line else [])] *)
Definition target_argv (target : str) (args_line : option str) : list str :=
  target :: match args_line with
            | Some s => if String.eqb s EmptyString then [] else str_split s
            | None => []
            end.

Definition run_instrumented (target : str) (args_line : option str)
    (seed : Z) (allow_net : bool) : M json :=
  EventLogger_init seed allow_net ;;
  (* apply patches *)
  undo_open <- patch_open ;;
  undo_sock <- patch_socket allow_net ;;
  undo_popen <- patch_subprocess ;;
  seed_all seed ;;
  (* prepare argv for the target script *)
  old_argv <- get sys_argv ;;
  modify (set_sys_argv (target_argv target args_line)) ;;
  try_finally
    (try_except
       (path <- os_path_abspath target ;;
        argv <- get sys_argv ;;
        log "begin" [("target", JStr path); ("args", JList (map JStr (tl argv)))] ;;
        runpy_run_path target ;;
        log "end" [("status", JStr "ok")])
       (fun e =>
          (* log exception type and message (not stack) *)
          log "end" [("status", JStr "exception"); ("error", JStr (repr_exn e))] ;;
          raise e))
    (* restore patches *)
    (modify (set_builtins_open undo_open) ;;
     modify (set_socket_socket undo_sock) ;;
     modify (set_subprocess_Popen undo_popen) ;;
     modify (set_sys_argv old_argv)) ;;
  manifest.

(** *** Subscripts and methods of loaded JSON, with Python's errors *)

Definition obind {A B} (r : outcome A) (k : A -> outcome B) : outcome B :=
  match r with Ok a => k a | Raised e => Raised e end.

Definition type_name (v : json) : str :=
  match v with
  | JNull => "NoneType" | JBool _ => "bool" | JInt _ => "int" | JFloat _ => "float"
  | JStr _ => "str" | JList _ => "list" | JObj _ => "dict"
  end.

(** [v.get(key, default)] *)
Definition py_get (v : json) (key : str) (default : json) : outcome json :=
  match v with
  | JObj d => Ok (match dict_get d key with Some x => x | None => default end)
  | _ => Raised (AttributeError (type_name v ++ " object has no attribute get"))
  end.

(** [v[key]] for a string [key] *)
Definition py_item (v : json) (key : str) : outcome json :=
  match v with
  | JObj d => match dict_get d key with
              | Some x => Ok x
              | None => Raised (KeyError key)
              end
  | JStr _ => Raised (TypeError "string indices must be integers")
  | JList _ => Raised (TypeError "list indices must be integers or slices, not str")
  | _ => Raised (TypeError (type_name v ++ " object is not subscriptable"))
  end.

(** [v[i]] for an index [i] *)
Definition py_index (v : json) (i : nat) : outcome json :=
  match v with
  | JList l => match nth_error l i with
               | Some x => Ok x
               | None => Raised (IndexError "list index out of range")
               end
  | JStr s => match String.get i s with
              | Some c => Ok (JStr (String c EmptyString))
              | None => Raised (IndexError "string index out of range")
              end
  | JObj _ => Raised (mkExn "KeyError" (str_of_Z (Z.of_nat i)) true)
  | _ => Raised (TypeError (type_name v ++ " object is not subscriptable"))
  end.

(** [len(v)] *)
Definition py_len (v : json) : outcome nat :=
  match v with
  | JList l => Ok (List.length l)
  | JStr s => Ok (String.length s)
  | JObj d => Ok (List.length d)
  | _ => Raised (TypeError ("object of type " ++ type_name v ++ " has no len()"))
  end.

Fixpoint strs_of (l : list json) : option (list str) :=
  match l with
  | [] => Some []
  | JStr s :: l' => option_map (cons s) (strs_of l')
  | _ :: _ => None
  end.

(** [" ".join(v)] *)
Definition py_join (v : json) : outcome str :=
  match v with
  | JList l => match strs_of l with
               | Some ss => Ok (join " " ss)
               | None => Raised (TypeError "sequence item: expected str instance")
               end
  | JStr s => Ok (join " " (map (fun c => String c EmptyString) (list_ascii_of_string s)))
  | JObj d => Ok (join " " (map fst d))
  | _ => Raised (TypeError "can only join an iterable")
  end.

(** The argument string [verify_run] replays:
    [" ".join(ref.get("events", [{}])[0].get("args", [])) if ref.get("events") else None] *)
Definition replay_args (ref : json) : outcome (option str) :=
  obind (py_get ref "events" JNull) (fun evs =>
  if truthy evs then
    obind (py_get ref "events" (JList [JObj []])) (fun evs' =>
    obind (py_index evs' 0) (fun first =>
    obind (py_get first "args" (JList [])) (fun args =>
    obind (py_join args) (fun line => Ok (Some line)))))
  else Ok None).

Definition lift {A} (r : outcome A) : M A := fun w => (r, w).

Definition diff_entry (index : json) (field : option str) (ref now : json) : json :=
  JObj ([("index", index)]
        ++ match field with Some f => [("field", JStr f)] | None => [] end
        ++ [("ref", ref); ("now", now)])%list.

Definition compared_keys : list str := ["path"; "sha256"; "bytes"; "cmd"; "host"; "port"].

(** The inner loop of [verify_run]: [for key in (...)]. *)
Fixpoint compare_fields (i : nat) (ea eb : json) (keys : list str) (diffs : list json)
  : outcome (list json) :=
  match keys with
  | [] => Ok diffs
  | key :: rest =>
      obind (py_get ea key JNull) (fun va =>
      obind (py_get eb key JNull) (fun vb =>
      if py_ne va vb
      then compare_fields i ea eb rest
             (diffs ++ [diff_entry (JInt (Z.of_nat i)) (Some key) va vb])%list
      else compare_fields i ea eb rest diffs))
  end.

(** The outer loop: [for i in range(n)], [count] indices left from [i] on. *)
Fixpoint compare_loop (count i : nat) (a b : json) (diffs : list json)
  : outcome (list json) :=
  match count with
  | O => Ok diffs
  | S count' =>
      obind (py_index a i) (fun ea =>
      obind (py_index b i) (fun eb =>
      obind (py_item ea "kind") (fun ka =>
      obind (py_item eb "kind") (fun kb =>
      if py_ne ka kb then
        compare_loop count' (S i) a b
          (diffs ++ [diff_entry (JInt (Z.of_nat i)) (Some "kind") ka kb])%list
      else
        (* compare selected fields when present *)
        obind (compare_fields i ea eb compared_keys diffs) (fun diffs' =>
        compare_loop count' (S i) a b diffs')))))
  end.

(** Lines 272-288 of [verify_run]: the comparison of the reference
    manifest with the manifest of the new run. *)
Definition compare_manifests (ref now : json) : outcome json :=
  obind (py_item ref "events") (fun a =>
  obind (py_item now "events") (fun b =>
  obind (py_len a) (fun la =>
  obind (py_len b) (fun lb =>
  let n := Nat.min la lb in
  obind (compare_loop n 0 a b []) (fun diffs =>
  let diffs :=
    if negb (Nat.eqb la lb)
    then (diffs ++ [diff_entry (JStr "len") None (JInt (Z.of_nat la)) (JInt (Z.of_nat lb))])%list
    else diffs in
  obind (py_get ref "root_hash" JNull) (fun ref_root =>
  obind (py_get now "root_hash" JNull) (fun now_root =>
  Ok (JObj [("ok", JBool (Nat.eqb (List.length diffs) 0));
            ("diffs", JList diffs);
            ("reference_root", ref_root);
            ("now_root", now_root)])))))))).

(** [verify_run], from the loaded reference manifest on. *)
Definition verify_run (target : str) (ref : json) (seed : Z) (allow_net : bool) : M json :=
  args_line <- lift (replay_args ref) ;;
  now <- run_instrumented target args_line seed allow_net ;;
  lift (compare_manifests ref now).

(** ** Vocabulary of the statements *)

(** The event [log] builds before the chain field is embedded. *)
Definition pre_event (start now : Z) (kind : str) (fields : dict) : event :=
  dict_update [("t", JFloat (round6 (now - start))); ("kind", JStr kind)] fields.

(** Hash of (previous chain hash ++ hash of the event's canonical form). *)
Definition chain_hash (prev : str) (pre : event) : str :=
  sha256_hex (str_encode (prev ++ _hash_dict pre)).

Definition stamp (prev : str) (pre : event) : event :=
  dict_set pre "chain" (JStr (chain_hash prev pre)).

(** The world [log] leaves behind. *)
Definition logged (kind : str) (fields : dict) (w : World) : World :=
  let L := logger w in
  let pre := pre_event (start_mono L) (clock w (clock_reads w)) kind fields in
  set_logger
    (with_events (events L ++ [stamp (prev_hash L) pre])
       (with_prev_hash (chain_hash (prev_hash L) pre) L))
    (set_clock_reads (S (clock_reads w)) w).

(** The event [log] appends in world [w]. *)
Definition new_event (kind : str) (fields : dict) (w : World) : event :=
  stamp (prev_hash (logger w))
    (pre_event (start_mono (logger w)) (clock w (clock_reads w)) kind fields).

(** The chain hash stored with an event. *)
Definition stored_chain (ev : event) : str :=
  match dict_get ev "chain" with
  | Some (JStr h) => h
  | _ => EmptyString
  end.

(** A sequence of appends. *)
Fixpoint log_all (calls : list (str * dict)) : M unit :=
  match calls with
  | [] => ret tt
  | (kind, fields) :: rest => log kind fields ;; log_all rest
  end.

(** The chain as the specification words it: each entry hashes the
    previous entry's chain hash with its own canonical-form hash. *)
Fixpoint chained (start : Z) (clk : nat -> Z) (n : nat) (prev : str)
    (calls : list (str * dict)) : list event :=
  match calls with
  | [] => []
  | (kind, fields) :: rest =>
      let pre := pre_event start (clk n) kind fields in
      stamp prev pre :: chained start clk (S n) (chain_hash prev pre) rest
  end.

(** *** Sample inputs *)

(** An unpatched interpreter whose clock advances by [step] nanoseconds
    per reading and whose target files all hold [script]. *)
Definition sample_world (step : Z) (script : Script) : World :=
  mkWorld (native_open 0) (native_socket 0) (native_Popen 0)
    ["merklerun.py"; "run"; "t.py"]
    (mkLogger EmptyString 0 [] EmptyString 0 false []) []
    (fun n => 5000 + step * Z.of_nat n) 0%nat
    "2024-01-01T00:00:00" "3.11.2" "linux" "/w" [] [] false None None
    (fun _ => script) [].

Definition sample_calls : list (str * dict) :=
  [("begin", []); ("end", [("status", JStr "ok")])].

(** A script's successive [write] calls on handle [h]; a failed call does
    not stop the next one. *)
Fixpoint write_all (h : nat) (writes : list payload) (w : World) : World :=
  match writes with
  | [] => w
  | b :: rest => write_all h rest (snd (IOShim_write h b w))
  end.

(** The bytes handed to [write]: text payloads in their encoding. *)
Definition written_bytes (writes : list payload) : bytes :=
  String.concat EmptyString (map payload_bytes writes).

(** What [write] adds to [_written] over the writes: [len(b)] of each
    payload, text in its encoding. *)
Definition counted (writes : list payload) : Z :=
  fold_right (fun b n => data_len (encoded b) + n) 0 writes.

(** The payload is a [str], [bytes] or [bytearray]. *)
Definition plain (b : payload) : Prop :=
  match b with PBuffer _ => False | _ => True end.

Definition hello_writes : list payload := [PBytes "ab"; PStr (String "233" "!")].

(** [array.array('I', [1, 2, 3])] on a little-endian machine: three
    items in twelve bytes. *)
Definition three_words : buffer :=
  mkBuffer "array.array" 3 "array('I', [1, 2, 3])"
    (String "001" (String "000" (String "000" (String "000"
    (String "002" (String "000" (String "000" (String "000"
    (String "003" (String "000" (String "000" (String "000" EmptyString)))))))))))).

(** The shim [s] is [self] after absorbing [data], counted as [n]. *)
Definition shim_absorbed (self : IOShim) (n : Z) (data : bytes) (s : IOShim) : Prop :=
  s = mkIOShim (_f self) (_path self) (_mode self)
        (_written self + n) (_hasher self ++ data)%string.

(** The event [ev] is the record of the [writes] to the file opened as
    [path]: a [file_write_close] with the absolute path, the hash of the
    bytes written and, for text and bytes payloads, their number. *)
Definition records_writes (w : World) (path : str) (writes : list payload) (ev : event)
  : Prop :=
  dict_get ev "kind" = Some (JStr "file_write_close")
  /\ dict_get ev "path" = Some (JStr (abspath_in (cwd w) path))
  /\ dict_get ev "sha256" = Some (JStr (sha256_hex (written_bytes writes)))
  /\ (Forall plain writes ->
      dict_get ev "bytes" = Some (JInt (len (written_bytes writes)))).

(** *** The phases of [run_instrumented] *)

(** The world after the patches are applied from [w1], seeds are set and
    the target's arguments are in place: the state in which the [try]
    block is entered. *)
Definition patched (allow : bool) (w1 : World) : World :=
  set_subprocess_Popen (PopenShim_of (subprocess_Popen w1))
    (set_socket_socket (SocketShim_of allow (socket_socket w1))
       (set_builtins_open (open_wrapper_of (builtins_open w1)) w1)).

Definition prepared (target : str) (args_line : option str) (seed : Z) (allow : bool)
    (w : World) : World :=
  set_sys_argv (target_argv target args_line)
    (snd (seed_all seed (patched allow (snd (EventLogger_init seed allow w))))).

(** The [finally] block: the bindings and arguments of [w0] put back. *)
Definition restored (w0 w : World) : World :=
  set_sys_argv (sys_argv w0)
    (set_subprocess_Popen (subprocess_Popen w0)
       (set_socket_socket (socket_socket w0)
          (set_builtins_open (builtins_open w0) w))).

Definition begin_fields (target : str) (w : World) : dict :=
  [("target", JStr (abspath_in (cwd w) target));
   ("args", JList (map JStr (tl (sys_argv w))))].

Definition end_exception_fields (e : exn) : dict :=
  [("status", JStr "exception"); ("error", JStr (repr_exn e))].

(** The [try]/[except] block, from the world [w] it is entered in. *)
Definition guarded_run (target : str) (w : World) : outcome unit * World :=
  let wb := logged "begin" (begin_fields target w) w in
  match run_script (source wb target) wb with
  | (Ok _, w') => (Ok tt, logged "end" [("status", JStr "ok")] w')
  | (Raised e, w') =>
      if exc_is_Exception e
      then (Raised e, logged "end" (end_exception_fields e) w')
      else (Raised e, w')
  end.

(** The process-wide bindings and arguments of two worlds agree. *)
Definition same_bindings (w w' : World) : Prop :=
  builtins_open w' = builtins_open w
  /\ socket_socket w' = socket_socket w
  /\ subprocess_Popen w' = subprocess_Popen w
  /\ sys_argv w' = sys_argv w.

(** A target that writes three bytes to [out.bin] and closes the file. *)
Definition write_script : Script :=
  Do (c_open "out.bin" "wb") (fun r =>
    match r with
    | Ok (VObj h) =>
        Do (c_write h (PBytes "abc")) (fun _ => Do (c_close h) (fun _ => Done))
    | Raised e => Throw e
    | Ok _ => Done
    end).

(** A target that fails at once. *)
Definition failing_script : Script := Throw (ValueError "boom").

(** A target that exits through [sys.exit(3)]. *)
Definition exiting_script : Script := Throw (SystemExit 3).

(** An event without its relative time and chain hash: what it records of
    the boundary. *)
Definition boundary_of (ev : json) : json :=
  match ev with
  | JObj d =>
      JObj (filter (fun kv => negb (String.eqb (fst kv) "t" || String.eqb (fst kv) "chain")) d)
  | _ => ev
  end.

Definition boundary_events (m : json) : list json :=
  match py_item m "events" with
  | Ok (JList evs) => map boundary_of evs
  | _ => []
  end.

Definition root_hash_of (m : json) : json :=
  match py_item m "root_hash" with Ok h => h | Raised _ => JNull end.

Definition last_event (w : World) : event := last (events (logger w)) [].

(** *** The comparison of [verify_run], in the words of its description *)

Definition kind_of (e : dict) : json := get_or_none e "kind".

(** The divergences of the six compared fields at index [i]; a field a
    side does not define counts as [None] there. *)
Definition field_diffs (i : nat) (ea eb : dict) : list json :=
  flat_map
    (fun key =>
       if py_ne (get_or_none ea key) (get_or_none eb key)
       then [diff_entry (JInt (Z.of_nat i)) (Some key)
               (get_or_none ea key) (get_or_none eb key)]
       else [])
    compared_keys.

(** The divergences at index [i]: the kinds alone when they differ, the
    fields otherwise. *)
Definition index_diffs (i : nat) (ea eb : dict) : list json :=
  if py_ne (kind_of ea) (kind_of eb)
  then [diff_entry (JInt (Z.of_nat i)) (Some "kind") (kind_of ea) (kind_of eb)]
  else field_diffs i ea eb.

(** Index by index, up to the shorter list. *)
Fixpoint paired_diffs (i : nat) (a b : list dict) : list json :=
  match a, b with
  | ea :: a', eb :: b' => (index_diffs i ea eb ++ paired_diffs (S i) a' b')%list
  | _, _ => []
  end.

(** One divergence when the lengths differ. *)
Definition length_diffs (a b : list dict) : list json :=
  if Nat.eqb (List.length a) (List.length b) then []
  else [diff_entry (JStr "len") None
          (JInt (Z.of_nat (List.length a))) (JInt (Z.of_nat (List.length b)))].

Definition expected_diffs (a b : list dict) : list json :=
  (paired_diffs 0 a b ++ length_diffs a b)%list.

Definition has_kind (e : dict) : Prop := dict_get e "kind" <> None.

Definition is_nil {A} (l : list A) : bool :=
  match l with [] => true | _ => false end.

(** Two reference events are indistinguishable to the comparison. *)
Definition agree (e1 e2 : json) : Prop :=
  py_item e1 "kind" = py_item e2 "kind"
  /\ forall key, In key compared_keys -> py_get e1 key JNull = py_get e2 key JNull.

(** What a verification result says: [ok] and the divergence list. *)
Definition verdict (r : outcome json) : outcome (json * json) :=
  obind r (fun res =>
  obind (py_item res "ok") (fun ok =>
  obind (py_item res "diffs") (fun diffs => Ok (ok, diffs)))).

(** A reference of one event that defines [path], and an observed
    manifest whose event of the same kind does not. *)
Definition ref_with_path : json :=
  JObj [("events", JList [JObj [("kind", JStr "file_open"); ("path", JStr "/a")]])].
Definition now_without_path : json :=
  JObj [("events", JList [JObj [("kind", JStr "file_open")]])].

(** A target that opens for writing the file its first argument names. *)
Definition argv_script : Script :=
  Do c_get_argv (fun r =>
    match r with
    | Ok (VStrs (_ :: p :: _)) =>
        Do (c_open p "w") (fun r' =>
          match r' with
          | Ok (VObj h) => Do (c_close h) (fun _ => Done)
          | Raised e => Throw e
          | Ok _ => Done
          end)
    | _ => Done
    end).

(** Two references that differ in the arguments recorded with the first
    event and in nothing the comparison reads. *)
Definition ref_for (arg : str) : json :=
  JObj [("events",
         JList [JObj [("kind", JStr "rng_seed"); ("args", JList [JStr arg])];
                JObj [("kind", JStr "rng_seed_skip")];
                JObj [("kind", JStr "begin")];
                JObj [("kind", JStr "file_open"); ("path", JStr "/w/a.txt")];
                JObj [("kind", JStr "file_write_close"); ("path", JStr "/w/a.txt");
                      ("bytes", JInt 0);
                      ("sha256",
                       JStr "e3b0c44298fc1c149afbf4c8996fb92427ae41e4649b934ca495991b7852b855")];
                JObj [("kind", JStr "end")]])].

(** A reference as [run_instrumented] writes them: its first event is
    the seeding of the generator and carries no [args]. *)
Definition ref_without_args : json :=
  JObj [("events",
         JList [JObj [("kind", JStr "rng_seed"); ("lib", JStr "random"); ("seed", JInt 42)];
                JObj [("kind", JStr "rng_seed_skip"); ("lib", JStr "numpy")];
                JObj [("kind", JStr "begin"); ("args", JList [JStr "a.txt"])];
                JObj [("kind", JStr "end"); ("status", JStr "ok")]]);
        ("root_hash", JStr "00")].

Definition events_of (m : json) : list json :=
  match py_item m "events" with
  | Ok (JList evs) => evs
  | _ => []
  end.

Definition path_divergence (i : nat) (ref now : json) : json :=
  diff_entry (JInt (Z.of_nat i)) (Some "path") ref now.

(** ** Vocabulary of the further properties *)

(** The path exists in the file system of [w]. *)
Definition exists_in (w : World) (p : str) : bool :=
  match assoc_get (fs w) p with Some _ => true | None => false end.

Definition file_open_fields (w : World) (path mode : str) : dict :=
  [("path", JStr (abspath_in (cwd w) path)); ("mode", JStr mode)].

Definition write_close_fields (w : World) (self : IOShim) : dict :=
  [("path", JStr (abspath_in (cwd w) (_path self))); ("bytes", JInt (_written self));
   ("sha256", JStr (sha256_hex (_hasher self)))].

(** A patched interpreter in which [/w/in.txt] exists. *)
Definition world_with_file : World :=
  set_fs [("/w/in.txt", "hello")]
    (snd (patch_open (snd (EventLogger_init 7 false (sample_world 1000000 Done))))).

(** A patched interpreter after [open("out.txt", mode)]. *)
Definition world_after_open (mode : str) : World :=
  snd (perform (c_open "out.txt" mode)
         (snd (patch_open (snd (EventLogger_init 7 false (sample_world 1000000 Done)))))).

Definition closed (raw : rawfile) : rawfile := mkRaw (f_path raw) (f_mode raw) true.

(** The world a real [close] of file [f] leaves. *)
Definition after_raw_close (f : nat) (raw : rawfile) (w : World) : World :=
  set_objs (replace_nth (objs w) f (FileObj (closed raw)))
    (add_real_op (r_close (f_path raw)) w).

(** What the successive [write] calls on handle [h] return, each call
    made in the state the one before left. *)
Fixpoint write_results (h : nat) (writes : list payload) (w : World)
  : list (outcome Z) :=
  match writes with
  | [] => []
  | b :: rest =>
      fst (IOShim_write h b w) :: write_results h rest (snd (IOShim_write h b w))
  end.

(** *** Invariants of the log *)

(** [m] keeps the property [I] of the logger. *)
Definition keeps (I : EventLogger -> Prop) {A : Type} (m : M A) : Prop :=
  forall w, I (logger w) -> I (logger (snd (m w))).

(** [I] survives every append whose fields do not name the chain. *)
Definition log_closed (I : EventLogger -> Prop) : Prop :=
  forall w kind fields,
    dict_get fields "chain" = None -> I (logger w) -> I (logger (logged kind fields w)).

(** The logger [EventLogger.__init__] builds in [w]. *)
Definition fresh_logger (seed : Z) (allow : bool) (w : World) : EventLogger :=
  logger (snd (EventLogger_init seed allow w)).

(** An event without its chain field. *)
Definition unchain (e : event) : event :=
  filter (fun kv => negb (String.eqb (fst kv) "chain")) e.

(** Recomputing the chain over stored events, as a checker of a manifest
    would: every stored chain hash must be the hash of the previous one
    with the hash of the event without its chain field. *)
Fixpoint verify_chain (prev : str) (evs : list event) : bool :=
  match evs with
  | [] => true
  | e :: rest =>
      let h := chain_hash prev (unchain e) in
      match dict_get e "chain" with
      | Some (JStr c) => String.eqb c h
      | _ => false
      end && verify_chain h rest
  end.

(** The chain hash the recomputation ends with. *)
Definition chain_end (prev : str) (evs : list event) : str :=
  fold_left (fun p e => chain_hash p (unchain e)) evs prev.

Definition chain_consistent (L : EventLogger) : Prop :=
  verify_chain (zeros 64) (events L) = true
  /\ prev_hash L = chain_end (zeros 64) (events L).

Definition extends (evs : list event) (L : EventLogger) : Prop :=
  exists rest, events L = (evs ++ rest)%list.

(** A record of seeding [random]: its kind is [rng_seed] and it has no
    [args] field. *)
Definition seeding_record (e : event) : Prop :=
  dict_get e "kind" = Some (JStr "rng_seed") /\ dict_get e "args" = None.

(** *** The [diff] command *)








(** * Checks of the embedding against known values *)

Example sha256_constants :
  firstn 2 SHA256.K = [1116352408; 1899447441]%Z
  /\ nth 63 SHA256.K 0%Z = 3329325298%Z
  /\ SHA256.frac_sqrt 2 = 1779033703%Z.
Proof. vm_compute. repeat split. Qed.

Example sha256_abc :
  SHA256.hexdigest "abc"
  = "ba7816bf8f01cfea414140de5dae2223b00361a396177a9cb410ff61f20015ad".
Proof. vm_compute. reflexivity. Qed.

Example sha256_empty :
  SHA256.hexdigest EmptyString
  = "e3b0c44298fc1c149afbf4c8996fb92427ae41e4649b934ca495991b7852b855".
Proof. vm_compute. reflexivity. Qed.

Example sha256_two_blocks :
  SHA256.hexdigest "abcdbcdecdefdefgefghfghighijhijkijkljklmklmnlmnomnopnopq"
  = "248d6a61d20638b8e5c026930c3e6039a33ce45964ff2167f6ecedd419db06c1".
Proof. vm_compute. reflexivity. Qed.

Example json_dumps_event :
  json_dumps (JObj [("t", JFloat 123); ("kind", JStr "begin");
                    ("target", JStr "/w/t.py"); ("args", JList [JStr "a"; JInt (-3)]);
                    ("ok", JBool true); ("none", JNull)])
  = dq "{'args':['a',-3],'kind':'begin','none':null,'ok':true,'t':0.000123,'target':'/w/t.py'}".
Proof. vm_compute. reflexivity. Qed.

Example float_repr_samples :
  map float_repr [0; 1; 10; 12; 99; 100; 123; 1500000; 1000000; 1234567; 12000000; -2500]%Z
  = ["0.0"; "1e-06"; "1e-05"; "1.2e-05"; "9.9e-05"; "0.0001"; "0.000123"; "1.5"; "1.0";
     "1.234567"; "12.0"; "-0.0025"].
Proof. vm_compute. reflexivity. Qed.

Example escape_samples :
  escape_str ("a" ++ String "010" (String "233" (String dquote "\")))
  = "a\n\u00e9\" ++ String dquote "\\".
Proof. vm_compute. reflexivity. Qed.

Example encode_samples :
  SHA256.byte_values (str_encode (String "233" "A")) = [195; 169; 65]%Z.
Proof. vm_compute. reflexivity. Qed.

(** * Properties *)

Arguments sha256_hex : simpl never.
Arguments json_dumps : simpl never.
Arguments str_encode : simpl never.
Arguments _hash_dict : simpl never.
Arguments round6 : simpl never.
Arguments zeros : simpl never.

(** ** Dictionaries *)

Lemma dict_get_set_same (d : dict) (k : str) (v : json) :
  dict_get (dict_set d k v) k = Some v.
Proof.
  unfold dict_get.
  induction d as [|[k' v'] d IH]; simpl.
  - now rewrite String.eqb_refl.
  - destruct (String.eqb k' k) eqn:E; simpl; rewrite E; auto.
Qed.

Lemma dict_get_set_other (d : dict) (k k' : str) (v : json) :
  k <> k' -> dict_get (dict_set d k v) k' = dict_get d k'.
Proof.
  unfold dict_get. intros Hne.
  induction d as [|[k0 v0] d IH]; simpl.
  - destruct (String.eqb k k') eqn:E; auto.
    apply String.eqb_eq in E. contradiction.
  - destruct (String.eqb k0 k) eqn:E; simpl.
    + apply String.eqb_eq in E. subst k0.
      destruct (String.eqb k k') eqn:E'; auto.
      apply String.eqb_eq in E'. contradiction.
    + destruct (String.eqb k0 k'); auto.
Qed.

(** ** The event log *)

Lemma log_eq (kind : str) (fields : dict) (w : World) :
  log kind fields w = (Ok tt, logged kind fields w).
Proof. reflexivity. Qed.

Lemma logged_events (kind : str) (fields : dict) (w : World) :
  events (logger (logged kind fields w))
  = (events (logger w) ++ [new_event kind fields w])%list.
Proof. reflexivity. Qed.

Lemma manifest_pure (w : World) : snd (manifest w) = w.
Proof. reflexivity. Qed.

Lemma stored_chain_stamp (prev : str) (pre : event) :
  stored_chain (stamp prev pre) = chain_hash prev pre.
Proof. unfold stored_chain, stamp. now rewrite dict_get_set_same. Qed.

Lemma log_all_chained (calls : list (str * dict)) :
  forall w,
    fst (log_all calls w) = Ok tt /\
    events (logger (snd (log_all calls w)))
    = (events (logger w)
       ++ chained (start_mono (logger w)) (clock w) (clock_reads w)
            (prev_hash (logger w)) calls)%list.
Proof.
  induction calls as [|[kind fields] rest IH]; intros w; simpl.
  - split; [reflexivity | now rewrite app_nil_r].
  - unfold bind. rewrite log_eq.
    destruct (IH (logged kind fields w)) as [Hok Hev].
    split; [exact Hok|].
    rewrite Hev. simpl. now rewrite <- app_assoc.
Qed.

Lemma chained_length start clk n prev calls :
  List.length (chained start clk n prev calls) = List.length calls.
Proof.
  revert n prev. induction calls as [|[k f] rest IH]; intros; simpl; auto.
Qed.

Lemma chained_nth start clk calls :
  forall n prev i kind fields,
    nth_error calls i = Some (kind, fields) ->
    let pre := pre_event start (clk (n + i)%nat) kind fields in
    let before :=
      match i with
      | O => prev
      | S j => stored_chain (nth j (chained start clk n prev calls) [])
      end in
    nth_error (chained start clk n prev calls) i = Some (stamp before pre).
Proof.
  induction calls as [|[k f] rest IH]; intros n prev i kind fields Hi.
  - destruct i; discriminate.
  - destruct i as [|i]; simpl in Hi |- *.
    + inversion Hi; subst. now rewrite Nat.add_0_r.
    + specialize (IH (S n) (chain_hash prev (pre_event start (clk n) k f)) i kind fields Hi).
      simpl in IH. rewrite IH.
      replace (n + S i)%nat with (S n + i)%nat by lia.
      destruct i as [|i]; simpl.
      * now rewrite stored_chain_stamp.
      * reflexivity.
Qed.

(** C3. For every sequence of appends to a fresh log, the i-th stored
    event is the event built for the i-th append with its chain hash
    embedded, and that chain hash is the hash of the previous event's chain
    hash (sixty-four zeros for the first event) concatenated with the hash
    of the event's canonical form before the chain field is embedded. *)
Theorem chain_links_each_event :
  forall (calls : list (str * dict)) (w0 : World) (seed : Z) (allow : bool)
         (i : nat) (kind : str) (fields : dict),
    let w := snd (EventLogger_init seed allow w0) in
    let w' := snd (log_all calls w) in
    nth_error calls i = Some (kind, fields) ->
    let pre := pre_event (start_mono (logger w)) (clock w (clock_reads w + i)%nat)
                 kind fields in
    let prev :=
      match i with
      | O => "0000000000000000000000000000000000000000000000000000000000000000"
      | S j => stored_chain (nth j (events (logger w')) [])
      end in
    fst (log_all calls w) = Ok tt
    /\ List.length (events (logger w')) = List.length calls
    /\ nth_error (events (logger w')) i
       = Some (dict_set pre "chain"
                 (JStr (sha256_hex (str_encode (prev ++ _hash_dict pre))))).
Proof.
  intros calls w0 seed allow i kind fields w w' Hi pre prev.
  destruct (log_all_chained calls w) as [Hok Hev].
  assert (Hevs : events (logger w) = []) by reflexivity.
  assert (Hprev : prev_hash (logger w) = zeros 64) by reflexivity.
  fold w' in Hev. rewrite Hevs, Hprev in Hev. simpl in Hev.
  split; [exact Hok|]. split.
  - rewrite Hev. apply chained_length.
  - subst prev. rewrite Hev.
    change "0000000000000000000000000000000000000000000000000000000000000000"
      with (zeros 64).
    exact (chained_nth (start_mono (logger w)) (clock w) calls (clock_reads w)
             (zeros 64) i kind fields Hi).
Qed.

Lemma chain_links_each_event_witness :
  nth_error sample_calls 1 = Some ("end", [("status", JStr "ok")])
  /\ nth_error
       (events (logger (snd (log_all sample_calls
                               (snd (EventLogger_init 7 false (sample_world 1000000 Done)))))))
       1
     = Some [("t", JFloat 2000); ("kind", JStr "end"); ("status", JStr "ok");
             ("chain",
              JStr "45f8e039f7e8e3e358f08d1b0880b3dc544b430ded51b7071f7399f1a843a228")].
Proof.
  split; [reflexivity|].
  destruct (chain_links_each_event sample_calls (sample_world 1000000 Done) 7 false
              1 "end" [("status", JStr "ok")] eq_refl) as [_ [_ H]].
  etransitivity; [exact H|].
  vm_compute. reflexivity.
Defined.

(** C7 (as stated, refuted). On a fresh log, [manifest] is called twice
    and an event is appended afterwards: every call succeeds and the late
    event is stored. *)
Lemma append_after_finalize_is_accepted :
  let w := snd (EventLogger_init 7 false (sample_world 1000000 Done)) in
  let r := (manifest ;; manifest ;; log "late" []) w in
  fst r = Ok tt /\ List.length (events (logger (snd r))) = 1%nat.
Proof. split; reflexivity. Qed.

(** C7 (amended). [manifest] never fails and leaves the log as it was, so
    it can be called any number of times and returns the same manifest
    until the next append; an append after it is accepted and behaves
    exactly like the same append without it. *)
Theorem manifest_keeps_log_open :
  forall (w : World) (kind : str) (fields : dict),
    (exists m, manifest w = (Ok m, w))
    /\ (manifest ;; manifest) w = manifest w
    /\ (manifest ;; log kind fields) w = log kind fields w
    /\ fst (log kind fields w) = Ok tt
    /\ events (logger (snd ((manifest ;; log kind fields) w)))
       = (events (logger w) ++ [new_event kind fields w])%list.
Proof.
  intros w kind fields. repeat split.
  eexists. reflexivity.
Qed.

(** ** The network shim *)

Definition no_real_effect (w w' : World) : Prop :=
  real_ops w' = real_ops w /\ net_in w' = net_in w /\ fs w' = fs w.

(** C4. On a socket of the shim class installed with the network denied,
    [connect], [send] and [recv] each raise the policy violation, append
    exactly one event ([net_block], [net_block_send], [net_block_recv]) with
    the fields of the call, and perform no real operation. *)
Theorem denied_network_calls_are_blocked :
  forall (w : World) (super : socket_impl) (host port : json)
         (data : payload) (bufsize : Z),
    let cls := SocketShim_of false super in
    let rc := sock_connect cls host port w in
    let rs := sock_send cls data w in
    let rr := sock_recv cls bufsize w in
    (fst rc = Raised PolicyViolation
     /\ (exists ev,
           events (logger (snd rc)) = (events (logger w) ++ [ev])%list
           /\ dict_get ev "kind" = Some (JStr "net_block")
           /\ dict_get ev "host" = Some host
           /\ dict_get ev "port" = Some port)
     /\ no_real_effect w (snd rc))
    /\ (fst rs = Raised PolicyViolation
        /\ (exists ev,
              events (logger (snd rs)) = (events (logger w) ++ [ev])%list
              /\ dict_get ev "kind" = Some (JStr "net_block_send")
              /\ dict_get ev "bytes" = Some (JInt (data_len data)))
        /\ no_real_effect w (snd rs))
    /\ (fst rr = Raised PolicyViolation
        /\ (exists ev,
              events (logger (snd rr)) = (events (logger w) ++ [ev])%list
              /\ dict_get ev "kind" = Some (JStr "net_block_recv")
              /\ dict_get ev "req" = Some (JInt bufsize))
        /\ no_real_effect w (snd rr)).
Proof.
  intros w super host port data bufsize cls rc rs rr.
  repeat split;
    try (eexists; repeat split; reflexivity).
Qed.

(** ** The file shim *)

Lemma len_append (a b : string) : len (a ++ b) = len a + len b.
Proof.
  unfold len. induction a as [|c a IH]; simpl String.length.
  - reflexivity.
  - rewrite !Nat2Z.inj_succ. simpl in IH. lia.
Qed.

Lemma append_empty_r (a : string) : (a ++ EmptyString)%string = a.
Proof. induction a as [|c a IH]; simpl; [reflexivity | now rewrite IH]. Qed.

Lemma append_assoc_str (a b c : string) : ((a ++ b) ++ c)%string = (a ++ b ++ c)%string.
Proof. induction a as [|x a IH]; simpl; [reflexivity | now rewrite IH]. Qed.

Lemma concat_empty_cons (x : string) (l : list string) :
  String.concat EmptyString (x :: l) = (x ++ String.concat EmptyString l)%string.
Proof.
  destruct l as [|y l]; simpl.
  - now rewrite append_empty_r.
  - reflexivity.
Qed.

Lemma nth_error_replace_same {A} (l : list A) (i : nat) (x y : A) :
  nth_error l i = Some y -> nth_error (replace_nth l i x) i = Some x.
Proof.
  revert i. induction l as [|a l IH]; intros [|i] H; simpl in *; try discriminate; auto.
Qed.

Lemma nth_error_replace_other {A} (l : list A) (i j : nat) (x : A) :
  i <> j -> nth_error (replace_nth l i x) j = nth_error l j.
Proof.
  revert i j. induction l as [|a l IH]; intros [|i] [|j] H; simpl; auto.
  contradiction.
Qed.

Lemma recursion_limit_S : recursion_limit = S 999.
Proof. reflexivity. Qed.

(** Unfolding equations of the fuelled calls. *)
Lemma obj_write_eq (fuel h : nat) (b : payload) (w : World) :
  obj_write fuel h b w
  = match nth_error (objs w) h with
    | Some (FileObj f) => raw_write f b w
    | Some (ShimObj self) =>
        match fuel with
        | O => (Raised RecursionError, w)
        | S fuel' =>
            obj_write fuel' (_f self) (encoded b)
              (set_objs (replace_nth (objs w) h
                           (ShimObj (absorb (data_len (encoded b)) (payload_bytes (encoded b))
                                       self))) w)
        end
    | Some (SockObj _) => (Raised (AttributeError "write"), w)
    | None => (Raised (AttributeError "no such object"), w)
    end.
Proof.
  destruct fuel; cbn [obj_write]; unfold bind, get_obj;
    destruct (nth_error (objs w) h) as [[f|self|c]|]; reflexivity.
Qed.

Lemma obj_close_eq (fuel h : nat) (w : World) :
  obj_close fuel h w
  = match nth_error (objs w) h with
    | Some (FileObj f) => raw_close h f w
    | Some (ShimObj self) =>
        match fuel with
        | O => (Raised RecursionError, w)
        | S fuel' =>
            try_finally
              (obj_close fuel' (_f self))
              (if writes_mode (_mode self) then
                 path <- os_path_abspath (_path self) ;;
                 log "file_write_close"
                   [("path", JStr path); ("bytes", JInt (_written self));
                    ("sha256", JStr (sha256_hex (_hasher self)))]
               else ret tt) w
        end
    | Some (SockObj _) => (Ok tt, w)
    | None => (Raised (AttributeError "no such object"), w)
    end.
Proof.
  destruct fuel; cbn [obj_close]; unfold bind, get_obj;
    destruct (nth_error (objs w) h) as [[f|self|c]|]; reflexivity.
Qed.

(** What a real write leaves untouched. *)
Lemma raw_write_frame (f : rawfile) (b : payload) (w : World) :
  let w' := snd (raw_write f b w) in
  objs w' = objs w /\ logger w' = logger w /\ cwd w' = cwd w
  /\ clock w' = clock w /\ clock_reads w' = clock_reads w.
Proof.
  unfold raw_write.
  destruct (f_closed f); [repeat split|].
  destruct (contains "r" (f_mode f) && negb (contains "+" (f_mode f)))%bool;
    [repeat split|].
  destruct b, (contains "b" (f_mode f)); repeat split.
Qed.

(** One [IOShim.write]: the counters absorb the encoded payload, then the
    real file is written (successfully or not). *)
Lemma obj_write_shim_step (fuel : nat) (w : World) (h : nat) (self : IOShim)
    (raw : rawfile) (b : payload) :
  nth_error (objs w) h = Some (ShimObj self) ->
  nth_error (objs w) (_f self) = Some (FileObj raw) ->
  let w' := snd (obj_write (S fuel) h b w) in
  nth_error (objs w') h
  = Some (ShimObj (absorb (data_len (encoded b)) (payload_bytes (encoded b)) self))
  /\ nth_error (objs w') (_f self) = Some (FileObj raw)
  /\ logger w' = logger w /\ cwd w' = cwd w
  /\ clock w' = clock w /\ clock_reads w' = clock_reads w.
Proof.
  intros Hh Hf.
  assert (Hne : h <> _f self) by (intros E; rewrite <- E, Hh in Hf; discriminate).
  rewrite obj_write_eq, Hh. cbv beta iota.
  set (w1 := set_objs _ w).
  assert (Hh1 : nth_error (objs w1) h
                = Some (ShimObj (absorb (data_len (encoded b)) (payload_bytes (encoded b)) self)))
    by (apply (nth_error_replace_same _ _ _ _ Hh)).
  assert (Hf1 : nth_error (objs w1) (_f self) = Some (FileObj raw))
    by (subst w1; simpl; rewrite nth_error_replace_other; auto).
  rewrite obj_write_eq, Hf1. cbv beta iota zeta.
  destruct (raw_write_frame raw (encoded b) w1)
    as (Ho & Hl & Hc & Hk & Hr).
  cbv zeta in Ho, Hl, Hc, Hk, Hr.
  rewrite Ho, Hl, Hc, Hk, Hr. repeat split; auto.
Qed.

Lemma IOShim_write_step (w : World) (h : nat) (self : IOShim) (raw : rawfile)
    (b : payload) :
  nth_error (objs w) h = Some (ShimObj self) ->
  nth_error (objs w) (_f self) = Some (FileObj raw) ->
  let w' := snd (IOShim_write h b w) in
  nth_error (objs w') h
  = Some (ShimObj (absorb (data_len (encoded b)) (payload_bytes (encoded b)) self))
  /\ nth_error (objs w') (_f self) = Some (FileObj raw)
  /\ logger w' = logger w /\ cwd w' = cwd w
  /\ clock w' = clock w /\ clock_reads w' = clock_reads w.
Proof.
  unfold IOShim_write. rewrite recursion_limit_S.
  apply obj_write_shim_step.
Qed.

(** ** Sequencing *)

Lemma bind_ok {A B} (m : M A) (k : A -> M B) (w w' : World) (a : A) :
  m w = (Ok a, w') -> bind m k w = k a w'.
Proof. unfold bind. now intros ->. Qed.

Lemma bind_raised {A B} (m : M A) (k : A -> M B) (w w' : World) (e : exn) :
  m w = (Raised e, w') -> bind m k w = (Raised e, w').
Proof. unfold bind. now intros ->. Qed.

Lemma try_finally_eq {A} (body : M A) (final : M unit) (w w1 w2 : World) (r : outcome A) :
  body w = (r, w1) -> final w1 = (Ok tt, w2) -> try_finally body final w = (r, w2).
Proof. unfold try_finally. now intros -> ->. Qed.


Lemma write_all_cons (h : nat) (b : payload) (rest : list payload) (w : World) :
  write_all h (b :: rest) w = write_all h rest (snd (IOShim_write h b w)).
Proof. reflexivity. Qed.

Lemma payload_bytes_encoded (b : payload) : payload_bytes (encoded b) = payload_bytes b.
Proof. now destruct b. Qed.

Lemma write_all_state (writes : list payload) :
  forall (w : World) (h : nat) (self : IOShim) (raw : rawfile),
    nth_error (objs w) h = Some (ShimObj self) ->
    nth_error (objs w) (_f self) = Some (FileObj raw) ->
    let w' := write_all h writes w in
    (exists s, nth_error (objs w') h = Some (ShimObj s)
               /\ shim_absorbed self (counted writes) (written_bytes writes) s)
    /\ nth_error (objs w') (_f self) = Some (FileObj raw)
    /\ logger w' = logger w /\ cwd w' = cwd w
    /\ clock w' = clock w /\ clock_reads w' = clock_reads w.
Proof.
  induction writes as [|b rest IH]; intros w h self raw Hh Hf.
  - cbn [write_all]. split; [|repeat split; auto].
    exists self. split; [exact Hh|].
    unfold shim_absorbed, written_bytes, counted. cbn [map String.concat fold_right].
    rewrite append_empty_r, Z.add_0_r. now destruct self.
  - rewrite write_all_cons.
    destruct (IOShim_write_step w h self raw b Hh Hf) as (Hh1 & Hf1 & Hl & Hc & Hk & Hr).
    cbv zeta in Hh1, Hf1, Hl, Hc, Hk, Hr.
    remember (snd (IOShim_write h b w)) as w1 eqn:Hw1. clear Hw1.
    destruct (IH w1 h _ raw Hh1 Hf1) as ((s & Hs & Habs) & Hf2 & Hl2 & Hc2 & Hk2 & Hr2).
    cbv zeta in Hs, Hf2, Hl2, Hc2, Hk2, Hr2. cbn [_f absorb] in Hf2.
    split; [|repeat split; congruence].
    exists s. split; [exact Hs|].
    unfold shim_absorbed in *. cbn [_f _path _mode _written _hasher absorb] in Habs.
    rewrite Habs, payload_bytes_encoded.
    unfold written_bytes, counted. simpl map. cbn [fold_right].
    rewrite concat_empty_cons, append_assoc_str. f_equal. lia.
Qed.

(** For text and bytes the count is the number of bytes. *)
Lemma counted_plain (writes : list payload) :
  Forall plain writes -> counted writes = len (written_bytes writes).
Proof.
  induction 1 as [|b rest Hb _ IH]; [reflexivity|].
  unfold counted, written_bytes in *. cbn [fold_right map].
  rewrite concat_empty_cons, len_append, IH.
  destruct b as [s|d|v]; [reflexivity | reflexivity | destruct Hb].
Qed.

Lemma real_open_ok (path mode : str) (w w' : World) (f : nat) :
  real_open path mode w = (Ok f, w') ->
  (exists raw, nth_error (objs w') f = Some (FileObj raw))
  /\ S f = List.length (objs w').
Proof.
  unfold real_open, bind, modify, os_path_abspath, os_path_exists, get, raise.
  cbn beta iota.
  destruct (negb (mode_letters mode =? 1)%nat); [discriminate|].
  match goal with |- context [if ?c then _ else _] => destruct c end; [discriminate|].
  match goal with |- context [if ?c then _ else _] => destruct c end; [discriminate|].
  match goal with |- context [if ?c then _ else _] => destruct c end;
    cbn; unfold new_obj; intros H; inversion H; subst; clear H; cbn;
    rewrite ?length_app; cbn; (split; [|lia]);
    eexists; rewrite nth_error_app2, Nat.sub_diag; cbn; auto.
Qed.

Lemma call_open_native (fuel id : nat) (path mode : str) :
  call_open fuel (native_open id) path mode = real_open path mode.
Proof. destruct fuel; reflexivity. Qed.

(** A successful intercepted [open] in a writing mode returns a fresh
    shim, with zeroed counters, around the file the real [open] gave. *)
Lemma open_wrapper_returns_shim (w w1 : World) (id h : nat) (path mode : str) :
  builtins_open w = open_wrapper_of (native_open id) ->
  writes_mode mode = true ->
  perform (c_open path mode) w = (Ok (VObj h), w1) ->
  exists f raw,
    nth_error (objs w1) h = Some (ShimObj (mkIOShim f path mode 0 EmptyString))
    /\ nth_error (objs w1) f = Some (FileObj raw).
Proof.
  intros Hb Hm.
  unfold perform. unfold bind at 1. unfold get at 1. rewrite Hb.
  rewrite recursion_limit_S. generalize 999%nat. intros fuel.
  cbn [call_open]. rewrite Hm.
  unfold bind at 1.
  unfold bind at 1. unfold os_path_abspath at 1, get at 1.
  unfold bind at 1. unfold os_path_exists at 1, get at 1.
  unfold bind at 1.
  match goal with
  | |- context [match ?m w with _ => _ end] => destruct (m w) as [[u|e] wa]
  end; [|discriminate].
  unfold bind at 1.
  rewrite call_open_native.
  destruct (real_open path mode wa) as [[f|e] wb] eqn:Hopen; [|discriminate].
  unfold new_obj, ret. intros H. inversion H; subst; clear H.
  destruct (real_open_ok _ _ _ _ _ Hopen) as [[raw Hraw] Hlen].
  exists f, raw. cbn. split.
  - rewrite nth_error_app2, Nat.sub_diag; auto.
  - rewrite nth_error_app1; [exact Hraw | lia].
Qed.

(** [IOShim.close] on a shim around a real file, as an equation. *)
Lemma IOShim_close_eq (w : World) (h : nat) (self : IOShim) (raw : rawfile) :
  nth_error (objs w) h = Some (ShimObj self) ->
  nth_error (objs w) (_f self) = Some (FileObj raw) ->
  writes_mode (_mode self) = true ->
  IOShim_close h w
  = (Ok tt, logged "file_write_close" (write_close_fields w self)
              (after_raw_close (_f self) raw w)).
Proof.
  intros Hh Hf Hm.
  unfold IOShim_close. rewrite recursion_limit_S. generalize 999%nat. intros fuel.
  rewrite obj_close_eq, Hh. cbv beta iota.
  rewrite Hm.
  apply try_finally_eq with (w1 := after_raw_close (_f self) raw w).
  - rewrite obj_close_eq, Hf. reflexivity.
  - reflexivity.
Qed.

(** The world a close leaves: the shim is as it was, its file is closed,
    and one event is appended. *)
Lemma close_leaves (w : World) (h : nat) (self : IOShim) (raw : rawfile) :
  nth_error (objs w) h = Some (ShimObj self) ->
  nth_error (objs w) (_f self) = Some (FileObj raw) ->
  let w' := logged "file_write_close" (write_close_fields w self)
              (after_raw_close (_f self) raw w) in
  nth_error (objs w') h = Some (ShimObj self)
  /\ nth_error (objs w') (_f self) = Some (FileObj (closed raw))
  /\ cwd w' = cwd w
  /\ events (logger w')
     = (events (logger w)
        ++ [new_event "file_write_close" (write_close_fields w self)
              (after_raw_close (_f self) raw w)])%list.
Proof.
  intros Hh Hf w'.
  assert (Hne : h <> _f self) by (intros E; rewrite <- E, Hh in Hf; discriminate).
  split; [|split; [|split]].
  - change (objs w') with (replace_nth (objs w) (_f self) (FileObj (closed raw))).
    rewrite nth_error_replace_other; auto.
  - change (objs w') with (replace_nth (objs w) (_f self) (FileObj (closed raw))).
    apply (nth_error_replace_same _ _ _ _ Hf).
  - reflexivity.
  - unfold w'. rewrite logged_events. reflexivity.
Qed.

Lemma perform_close (h : nat) (w w' : World) :
  IOShim_close h w = (Ok tt, w') -> perform (c_close h) w = (Ok VNone, w').
Proof.
  intros H. unfold perform. fold IOShim_close.
  rewrite (bind_ok _ _ _ _ _ H). reflexivity.
Qed.

(** The fields of the event a close appends. *)
Lemma write_close_event (w wl : World) (self : IOShim) :
  let ev := new_event "file_write_close" (write_close_fields w self) wl in
  dict_get ev "kind" = Some (JStr "file_write_close")
  /\ dict_get ev "path" = Some (JStr (abspath_in (cwd w) (_path self)))
  /\ dict_get ev "bytes" = Some (JInt (_written self))
  /\ dict_get ev "sha256" = Some (JStr (sha256_hex (_hasher self))).
Proof. repeat split. Qed.

(** C5 (amended).  A file is opened through the
    installed wrapper in a write, append or exclusive-creation mode; the
    script writes any payloads to the returned handle and closes it.  The
    writes log nothing.  Each close succeeds and appends exactly one event
    of kind [file_write_close]: a second close of the same handle appends
    a second one with the same record.  The [sha256] of the record is the
    SHA-256 of the concatenation of the bytes handed to [write] (text in
    its encoding), and its [bytes] is the number of those bytes when every
    payload is text or bytes. *)
Theorem closing_a_written_file_logs_its_hash :
  forall (w w1 : World) (id h : nat) (path mode : str) (writes : list payload),
    builtins_open w = open_wrapper_of (native_open id) ->
    writes_mode mode = true ->
    perform (c_open path mode) w = (Ok (VObj h), w1) ->
    let w2 := write_all h writes w1 in
    let r := perform (c_close h) w2 in
    let r' := perform (c_close h) (snd r) in
    events (logger w2) = events (logger w1)
    /\ fst r = Ok VNone
    /\ fst r' = Ok VNone
    /\ exists ev ev',
         events (logger (snd r)) = (events (logger w1) ++ [ev])%list
         /\ events (logger (snd r')) = (events (logger w1) ++ [ev; ev'])%list
         /\ records_writes w1 path writes ev
         /\ records_writes w1 path writes ev'
         /\ dict_get ev' "bytes" = dict_get ev "bytes".
Proof.
  intros w w1 id h path mode writes Hb Hm Hopen w2 r r'.
  destruct (open_wrapper_returns_shim _ _ _ _ _ _ Hb Hm Hopen) as (f & raw & Hh & Hf).
  destruct (write_all_state writes w1 h _ raw Hh Hf)
    as ((s & Hs & Habs) & Hf2 & Hl & Hc & _).
  fold w2 in Hs, Hf2, Hl, Hc. cbn [_f] in Hf2.
  unfold shim_absorbed in Habs. cbn [_f _path _mode _written _hasher] in Habs.
  assert (Hfs : nth_error (objs w2) (_f s) = Some (FileObj raw))
    by (rewrite Habs; exact Hf2).
  assert (Hms : writes_mode (_mode s) = true) by (rewrite Habs; exact Hm).
  pose proof (perform_close h w2 _ (IOShim_close_eq w2 h s raw Hs Hfs Hms)) as Hr.
  fold r in Hr.
  destruct (close_leaves w2 h s raw Hs Hfs) as (Hs3 & Hf3 & Hc3 & He3).
  set (w3 := logged "file_write_close" (write_close_fields w2 s)
               (after_raw_close (_f s) raw w2)) in *.
  pose proof (perform_close h w3 _ (IOShim_close_eq w3 h s (closed raw) Hs3 Hf3 Hms))
    as Hr'.
  destruct (close_leaves w3 h s (closed raw) Hs3 Hf3) as (_ & _ & _ & He4).
  assert (Hrec : forall wa wl, cwd wa = cwd w1 ->
            records_writes w1 path writes
              (new_event "file_write_close" (write_close_fields wa s) wl)).
  { intros wa wl Hcw.
    destruct (write_close_event wa wl s) as (Hk & Hp & Hby & Hsha).
    unfold records_writes.
    split; [exact Hk|].
    split; [rewrite Hp, Hcw, Habs; reflexivity|].
    split; [rewrite Hsha, Habs; reflexivity|].
    intros Hplain. rewrite Hby, Habs, <- (counted_plain _ Hplain). reflexivity. }
  assert (Er' : r' = perform (c_close h) w3) by (unfold r'; now rewrite Hr).
  rewrite Er', Hr', Hr. cbn [fst snd].
  split; [now rewrite Hl|]. split; [reflexivity|]. split; [reflexivity|].
  do 2 eexists. split; [|split; [|split; [|split]]].
  - rewrite He3, Hl. reflexivity.
  - rewrite He4, He3, Hl, <- app_assoc. reflexivity.
  - apply Hrec. exact Hc.
  - apply Hrec. now rewrite Hc3.
  - destruct (write_close_event w2 (after_raw_close (_f s) raw w2) s)
      as (_ & _ & Hby & _).
    destruct (write_close_event w3 (after_raw_close (_f s) (closed raw) w3) s)
      as (_ & _ & Hby' & _).
    now rewrite Hby, Hby'.
Qed.

Lemma closing_a_written_file_witness :
  let w := snd (patch_open (snd (EventLogger_init 7 false (sample_world 1000000 Done)))) in
  let w1 := snd (perform (c_open "out.bin" "wb") w) in
  let r := perform (c_close 1) (write_all 1 hello_writes w1) in
  builtins_open w = open_wrapper_of (native_open 0)
  /\ writes_mode "wb" = true
  /\ perform (c_open "out.bin" "wb") w = (Ok (VObj 1), w1)
  /\ exists ev,
       events (logger (snd r)) = (events (logger w1) ++ [ev])%list
       /\ dict_get ev "bytes" = Some (JInt 5)
       /\ dict_get ev "sha256"
          = Some (JStr "f788b7f0e783e0d02e84c0cd6e710afee167ec90fb9a9c16dc432dfc5c8d0a26").
Proof.
  intros w w1 r.
  assert (Hb : builtins_open w = open_wrapper_of (native_open 0)) by reflexivity.
  assert (Hm : writes_mode "wb" = true) by reflexivity.
  assert (Ho : perform (c_open "out.bin" "wb") w = (Ok (VObj 1), w1))
    by (vm_compute; reflexivity).
  repeat (split; [assumption|]).
  destruct (closing_a_written_file_logs_its_hash w w1 0 1 "out.bin" "wb" hello_writes
              Hb Hm Ho) as (_ & _ & _ & ev & _ & Hev & _ & (_ & _ & Hsha & Hby) & _ & _).
  exists ev. split; [exact Hev|]. split.
  - apply Hby. repeat constructor.
  - etransitivity; [exact Hsha|]. vm_compute. reflexivity.
Defined.

(** C5 (as stated).  A file is opened for binary writing through the
    wrapper, the script writes [array.array('I', [1, 2, 3])], twelve
    bytes, and closes the handle twice.  The twelve bytes reach the file,
    but the event reports [bytes = 3], the number of items; and the event
    is emitted twice, once by each close. *)
Lemma write_close_event_miscounts_and_repeats :
  let w := snd (patch_open (snd (EventLogger_init 7 false (sample_world 1000000 Done)))) in
  let w1 := snd (perform (c_open "out.bin" "wb") w) in
  let r := perform (c_close 1) (write_all 1 [PBuffer three_words] w1) in
  let r' := perform (c_close 1) (snd r) in
  len (written_bytes [PBuffer three_words]) = 12
  /\ file_content (snd r) "/w/out.bin" = buf_bytes three_words
  /\ dict_get (last_event (snd r)) "bytes" = Some (JInt 3)
  /\ fst r' = Ok VNone
  /\ map (fun e => dict_get e "kind") (events (logger (snd r')))
     = [Some (JStr "file_open"); Some (JStr "file_write_close");
        Some (JStr "file_write_close")].
Proof. vm_compute. repeat split. Qed.
(** ** The orchestrator *)

Lemma seed_all_ok (seed : Z) (w : World) :
  seed_all seed w = (Ok tt, snd (seed_all seed w))
  /\ same_bindings w (snd (seed_all seed w))
  /\ source (snd (seed_all seed w)) = source w
  /\ cwd (snd (seed_all seed w)) = cwd w.
Proof.
  unfold seed_all, same_bindings, bind, modify, try_except, get, ret, raise, log,
    _chain, time_monotonic, bind, modify, get, ret.
  cbn.
  destruct (has_numpy w); cbn;
    [destruct ((0 <=? seed) && (seed <? 4294967296))%bool; cbn|];
    repeat split.
Qed.

(** The [try]/[except] block of [run_instrumented]. *)
Lemma guarded_run_eq (target : str) (w : World) :
  try_except
    (path <- os_path_abspath target ;;
     argv <- get sys_argv ;;
     log "begin" [("target", JStr path); ("args", JList (map JStr (tl argv)))] ;;
     runpy_run_path target ;;
     log "end" [("status", JStr "ok")])
    (fun e =>
       log "end" [("status", JStr "exception"); ("error", JStr (repr_exn e))] ;;
       raise e) w
  = guarded_run target w.
Proof.
  unfold try_except, guarded_run, runpy_run_path, os_path_abspath, bind, get, raise.
  rewrite !log_eq. fold (begin_fields target w).
  change (source (logged "begin" (begin_fields target w) w)) with (source w).
  destruct (run_script (source w target) (logged "begin" (begin_fields target w) w))
    as [[[]|e] w'].
  - now rewrite log_eq.
  - destruct (exc_is_Exception e); [now rewrite log_eq | reflexivity].
Qed.

(** [run_instrumented] phase by phase. *)
Lemma run_instrumented_eq (target : str) (args_line : option str) (seed : Z)
    (allow : bool) (w : World) :
  run_instrumented target args_line seed allow w
  = let w0 := snd (EventLogger_init seed allow w) in
    let '(r, w') := guarded_run target (prepared target args_line seed allow w) in
    match r with
    | Ok _ => manifest (restored w0 w')
    | Raised e => (Raised e, restored w0 w')
    end.
Proof.
  cbv zeta. unfold run_instrumented, prepared.
  set (w0 := snd (EventLogger_init seed allow w)).
  rewrite (bind_ok _ _ w w0 tt) by reflexivity.
  rewrite (bind_ok patch_open _ w0 (set_builtins_open (open_wrapper_of (builtins_open w0)) w0)
             (builtins_open w0)) by reflexivity.
  rewrite (bind_ok (patch_socket allow) _ _
             (set_socket_socket (SocketShim_of allow (socket_socket w0))
                (set_builtins_open (open_wrapper_of (builtins_open w0)) w0))
             (socket_socket w0)) by reflexivity.
  rewrite (bind_ok patch_subprocess _ _ (patched allow w0) (subprocess_Popen w0))
    by reflexivity.
  destruct (seed_all_ok seed (patched allow w0)) as (Hs & (_ & _ & _ & Hargv) & _).
  rewrite (bind_ok _ _ _ _ _ Hs).
  set (w3 := snd (seed_all seed (patched allow w0))) in *.
  rewrite (bind_ok (get sys_argv) _ w3 w3 (sys_argv w0))
    by (unfold get; rewrite Hargv; reflexivity).
  rewrite (bind_ok (modify _) _ w3 (set_sys_argv (target_argv target args_line) w3) tt)
    by reflexivity.
  set (w4 := set_sys_argv (target_argv target args_line) w3).
  destruct (guarded_run target w4) as [r w'] eqn:Hg.
  rewrite <- guarded_run_eq in Hg.
  assert (Hfin : (modify (set_builtins_open (builtins_open w0)) ;;
                  modify (set_socket_socket (socket_socket w0)) ;;
                  modify (set_subprocess_Popen (subprocess_Popen w0)) ;;
                  modify (set_sys_argv (sys_argv w0))) w' = (Ok tt, restored w0 w'))
    by reflexivity.
  pose proof (try_finally_eq _ _ _ _ _ _ Hg Hfin) as Htf.
  destruct r as [[]|e].
  - rewrite (bind_ok _ _ _ _ _ Htf). reflexivity.
  - rewrite (bind_raised _ _ _ _ _ Htf). reflexivity.
Qed.

(** C8. Whatever the target does (also when it rebinds the capabilities
    or the arguments itself) and however it ends, when [run_instrumented]
    returns or lets the failure through, [builtins.open], [socket.socket],
    [subprocess.Popen] and [sys.argv] have their values from before the
    run. *)
Theorem run_instrumented_restores_bindings :
  forall (target : str) (args_line : option str) (seed : Z) (allow : bool) (w : World),
    same_bindings w (snd (run_instrumented target args_line seed allow w)).
Proof.
  intros target args_line seed allow w.
  rewrite run_instrumented_eq. cbv zeta.
  destruct (guarded_run target (prepared target args_line seed allow w))
    as [[[]|e] w']; unfold same_bindings; cbn; repeat split.
Qed.

(** During the run the three capabilities are the shims. *)
Lemma prepared_is_patched (target : str) (args_line : option str) (seed : Z)
    (allow : bool) (w : World) :
  let wp := prepared target args_line seed allow w in
  builtins_open wp = open_wrapper_of (builtins_open w)
  /\ socket_socket wp = SocketShim_of allow (socket_socket w)
  /\ subprocess_Popen wp = PopenShim_of (subprocess_Popen w)
  /\ sys_argv wp = target_argv target args_line.
Proof.
  unfold prepared.
  destruct (seed_all_ok seed (patched allow (snd (EventLogger_init seed allow w))))
    as (_ & (Ho & Hs & Hp & _) & _).
  revert Ho Hs Hp.
  generalize (snd (seed_all seed (patched allow (snd (EventLogger_init seed allow w))))).
  intros w3 Ho Hs Hp. cbv zeta.
  change (builtins_open (set_sys_argv (target_argv target args_line) w3))
    with (builtins_open w3).
  change (socket_socket (set_sys_argv (target_argv target args_line) w3))
    with (socket_socket w3).
  change (subprocess_Popen (set_sys_argv (target_argv target args_line) w3))
    with (subprocess_Popen w3).
  rewrite Ho, Hs, Hp. repeat split.
Qed.

(** C2 (what the code does). When the target lets an exception [e] of
    class [Exception] escape, [run_instrumented] appends the [end] event
    with status [exception] and [repr(e)], restores the bindings and lets
    [e] through: its outcome is the failure, and no manifest is returned. *)
Theorem failing_target_yields_no_manifest :
  forall (target : str) (args_line : option str) (seed : Z) (allow : bool)
         (w w' : World) (e : exn),
    let wp := prepared target args_line seed allow w in
    let wb := logged "begin" (begin_fields target wp) wp in
    run_script (source wb target) wb = (Raised e, w') ->
    exc_is_Exception e = true ->
    let r := run_instrumented target args_line seed allow w in
    fst r = Raised e
    /\ events (logger (snd r))
       = (events (logger w') ++ [new_event "end" (end_exception_fields e) w'])%list
    /\ dict_get (new_event "end" (end_exception_fields e) w') "status"
       = Some (JStr "exception")
    /\ dict_get (new_event "end" (end_exception_fields e) w') "error"
       = Some (JStr (repr_exn e)).
Proof.
  intros target args_line seed allow w w' e wp wb Hrun Hex r.
  subst r. rewrite run_instrumented_eq. cbv zeta.
  fold wp. unfold guarded_run. fold wb. rewrite Hrun, Hex.
  repeat split.
Qed.
Lemma failing_target_witness :
  let w := sample_world 1000000 failing_script in
  let r := run_instrumented "t.py" None 42 false w in
  exc_is_Exception (ValueError "boom") = true
  /\ fst r = Raised (ValueError "boom")
  /\ dict_get (last_event (snd r)) "error" = Some (JStr "ValueError('boom')").
Proof.
  intros w r.
  pose (wp := prepared "t.py" None 42 false w).
  pose (wb := logged "begin" (begin_fields "t.py" wp) wp).
  assert (Hrun : run_script (source wb "t.py") wb = (Raised (ValueError "boom"), wb))
    by reflexivity.
  destruct (failing_target_yields_no_manifest "t.py" None 42 false w wb
              (ValueError "boom") Hrun eq_refl) as (Hr & _).
  split; [reflexivity|]. split; [exact Hr|].
  vm_compute. reflexivity.
Defined.

(** C1 (what the code does). The same target under the same seed and
    policy is run on two machines that differ only in how fast the clock
    advances.  Both runs succeed and record the same boundary events, yet
    the two root hashes differ: the relative time of every event is part
    of what is hashed. *)
Theorem root_hash_varies_with_timing :
  let run step := fst (run_instrumented "t.py" None 42 false
                         (sample_world step write_script)) in
  exists m1 m2,
    run 1000000 = Ok m1 /\ run 2000000 = Ok m2
    /\ boundary_events m1 = boundary_events m2
    /\ List.length (boundary_events m1) = 6%nat
    /\ root_hash_of m1
       = JStr "41fb48fbe9594455c2ecf17fed555d15fc42450a9b657b09c95109df2633603a"
    /\ root_hash_of m2
       = JStr "e8ee0244dba3071d3834389ca603f0c853d96c972cb65235f32fbf97ee67444c"
    /\ root_hash_of m1 <> root_hash_of m2.
Proof.
  intros run. subst run. cbv beta.
  do 2 eexists.
  split; [vm_compute; reflexivity|].
  split; [vm_compute; reflexivity|].
  split; [vm_compute; reflexivity|].
  split; [vm_compute; reflexivity|].
  split; [vm_compute; reflexivity|].
  split; [vm_compute; reflexivity|].
  vm_compute. discriminate.
Qed.

(** The root hash is a function of the logged events alone: neither the
    wall-clock start, the seed, the policy nor the environment snapshot
    enters it. *)
Lemma root_hash_depends_on_events_only (w1 w2 : World) :
  events (logger w1) = events (logger w2) ->
  obind (fst (manifest w1)) (fun m => py_item m "root_hash")
  = obind (fst (manifest w2)) (fun m => py_item m "root_hash").
Proof.
  intros H. unfold manifest, bind, get, ret. cbn [fst obind].
  unfold py_item. rewrite !dict_get_set_same. now rewrite H.
Qed.

(** ** The verifier *)

Lemma compare_fields_eq (i : nat) (ea eb : dict) (keys : list str) :
  forall diffs,
    compare_fields i (JObj ea) (JObj eb) keys diffs
    = Ok (diffs
          ++ flat_map
               (fun key =>
                  if py_ne (get_or_none ea key) (get_or_none eb key)
                  then [diff_entry (JInt (Z.of_nat i)) (Some key)
                          (get_or_none ea key) (get_or_none eb key)]
                  else [])
               keys)%list.
Proof.
  induction keys as [|key rest IH]; intros diffs; cbn [compare_fields flat_map].
  - now rewrite app_nil_r.
  - cbn [py_get obind]. fold (get_or_none ea key). fold (get_or_none eb key).
    destruct (py_ne (get_or_none ea key) (get_or_none eb key)).
    + rewrite IH, <- app_assoc. reflexivity.
    + rewrite IH. reflexivity.
Qed.

Lemma py_item_kind (e : dict) :
  has_kind e -> py_item (JObj e) "kind" = Ok (kind_of e).
Proof.
  unfold has_kind, kind_of, get_or_none, py_item.
  destruct (dict_get e "kind"); [reflexivity | congruence].
Qed.

Lemma nth_error_map_app_length {A B} (f : A -> B) (l1 l2 : list A) (x : A) :
  nth_error (map f (l1 ++ x :: l2)) (List.length l1) = Some (f x).
Proof.
  rewrite map_app, nth_error_app2 by (rewrite length_map; lia).
  rewrite length_map, Nat.sub_diag. reflexivity.
Qed.

(** The loop computes the paired divergences of what is left of the two
    lists, up to the shorter. *)
Lemma compare_loop_eq (count : nat) :
  forall (a1 a2 b1 b2 : list dict) (diffs : list json),
    List.length b1 = List.length a1 ->
    (count <= List.length a2)%nat -> (count <= List.length b2)%nat ->
    Forall has_kind a2 -> Forall has_kind b2 ->
    compare_loop count (List.length a1)
      (JList (map JObj (a1 ++ a2))) (JList (map JObj (b1 ++ b2))) diffs
    = Ok (diffs ++ paired_diffs (List.length a1) (firstn count a2) (firstn count b2))%list.
Proof.
  induction count as [|count IH]; intros a1 a2 b1 b2 diffs Hlen Ha Hb Hka Hkb.
  - cbn. now rewrite app_nil_r.
  - destruct a2 as [|ea a2]; [cbn in Ha; lia|].
    destruct b2 as [|eb b2]; [cbn in Hb; lia|].
    assert (Hib : nth_error (map JObj (b1 ++ eb :: b2)) (List.length a1)
                  = Some (JObj eb))
      by (rewrite <- Hlen; apply nth_error_map_app_length).
    cbn [compare_loop py_index].
    rewrite nth_error_map_app_length, Hib.
    cbn [obind].
    inversion Hka as [|? ? Hea Hka']; subst. inversion Hkb as [|? ? Heb Hkb']; subst.
    rewrite (py_item_kind ea Hea), (py_item_kind eb Heb). cbn [obind].
    cbn [firstn paired_diffs]. unfold index_diffs.
    assert (Hstep : forall d,
      compare_loop count (S (List.length a1))
        (JList (map JObj (a1 ++ ea :: a2))) (JList (map JObj (b1 ++ eb :: b2))) d
      = Ok (d ++ paired_diffs (S (List.length a1)) (firstn count a2) (firstn count b2))%list).
    { intros d.
      replace (a1 ++ ea :: a2)%list with ((a1 ++ [ea]) ++ a2)%list
        by (now rewrite <- app_assoc).
      replace (b1 ++ eb :: b2)%list with ((b1 ++ [eb]) ++ b2)%list
        by (now rewrite <- app_assoc).
      replace (S (List.length a1)) with (List.length (a1 ++ [ea]))
        by (rewrite length_app; cbn; lia).
      apply IH; auto.
      - rewrite !length_app. cbn. lia.
      - cbn in Ha. lia.
      - cbn in Hb. lia. }
    destruct (py_ne (kind_of ea) (kind_of eb)).
    + rewrite Hstep, <- app_assoc. reflexivity.
    + rewrite compare_fields_eq. cbn [obind]. fold (field_diffs (List.length a1) ea eb).
      rewrite Hstep, <- app_assoc. reflexivity.
Qed.

Lemma paired_diffs_firstn (a b : list dict) :
  forall i,
    paired_diffs i (firstn (Nat.min (List.length a) (List.length b)) a)
      (firstn (Nat.min (List.length a) (List.length b)) b)
    = paired_diffs i a b.
Proof.
  revert b. induction a as [|ea a IH]; intros [|eb b] i; cbn; auto.
  now rewrite IH.
Qed.

Lemma length_eqb_is_nil {A} (l : list A) : Nat.eqb (List.length l) 0 = is_nil l.
Proof. now destruct l. Qed.

Lemma py_get_dict (d : dict) (key : str) : py_get (JObj d) key JNull = Ok (get_or_none d key).
Proof. reflexivity. Qed.

(** C6 (amended). The comparison of [verify_run] walks the reference and
    the observed events index by index up to the shorter list; at an index
    where the kinds differ it reports the kinds and nothing else; where
    they agree it reports each of [path], [sha256], [bytes], [cmd], [host],
    [port] whose two values differ, a field a side does not define counting
    as [None] (so a field only one side defines is reported); a length
    mismatch adds exactly one divergence; and [ok] is true exactly when
    the divergence list is empty. *)
Theorem verify_comparison_is_expected_diffs :
  forall (dref dnow : dict) (a b : list dict),
    dict_get dref "events" = Some (JList (map JObj a)) ->
    dict_get dnow "events" = Some (JList (map JObj b)) ->
    Forall has_kind a -> Forall has_kind b ->
    compare_manifests (JObj dref) (JObj dnow)
    = Ok (JObj [("ok", JBool (is_nil (expected_diffs a b)));
                ("diffs", JList (expected_diffs a b));
                ("reference_root", get_or_none dref "root_hash");
                ("now_root", get_or_none dnow "root_hash")]).
Proof.
  intros dref dnow a b Ha Hb Hka Hkb. unfold dict in *.
  unfold compare_manifests, py_item. rewrite Ha, Hb. cbn [obind py_len].
  rewrite !length_map. cbv zeta.
  assert (Hloop :
    compare_loop (Nat.min (List.length a) (List.length b)) 0
      (JList (map JObj a)) (JList (map JObj b)) []
    = Ok (paired_diffs 0 (firstn (Nat.min (List.length a) (List.length b)) a)
            (firstn (Nat.min (List.length a) (List.length b)) b)))
    by exact (compare_loop_eq (Nat.min (List.length a) (List.length b))
                [] a [] b [] eq_refl (Nat.le_min_l _ _) (Nat.le_min_r _ _) Hka Hkb).
  rewrite Hloop. cbn [obind app].
  rewrite paired_diffs_firstn, !py_get_dict. cbn [obind].
  rewrite !length_eqb_is_nil.
  unfold expected_diffs, length_diffs. unfold dict.
  destruct (Nat.eqb (List.length a) (List.length b)); cbn [negb];
    rewrite ?app_nil_r; reflexivity.
Qed.

Lemma verify_comparison_witness :
  dict_get [("events", JList (map JObj [[("kind", JStr "file_open"); ("path", JStr "/a")]]))]
    "events"
  = Some (JList (map JObj [[("kind", JStr "file_open"); ("path", JStr "/a")]]))
  /\ Forall has_kind [[("kind", JStr "file_open"); ("path", JStr "/a")]]
  /\ compare_manifests ref_with_path now_without_path
     = Ok (JObj [("ok", JBool false);
                 ("diffs", JList [path_divergence 0 (JStr "/a") JNull]);
                 ("reference_root", JNull);
                 ("now_root", JNull)]).
Proof.
  assert (Hk : forall e, dict_get e "kind" = Some (JStr "file_open") -> has_kind e)
    by (intros e H; unfold has_kind; rewrite H; discriminate).
  assert (Ha : Forall has_kind [[("kind", JStr "file_open"); ("path", JStr "/a")]])
    by (constructor; [apply Hk; reflexivity | constructor]).
  assert (Hb : Forall has_kind [[("kind", JStr "file_open")]])
    by (constructor; [apply Hk; reflexivity | constructor]).
  split; [reflexivity|]. split; [exact Ha|].
  exact (verify_comparison_is_expected_diffs
           [("events", JList (map JObj [[("kind", JStr "file_open"); ("path", JStr "/a")]]))]
           [("events", JList (map JObj [[("kind", JStr "file_open")]]))]
           _ _ eq_refl eq_refl Ha Hb).
Defined.

(** C6 (as stated, refuted). The reference event defines [path] and the
    observed event of the same kind does not: the field is compared all
    the same and reported as a divergence, so the verification fails. *)
Lemma verify_reports_field_defined_on_one_side :
  py_item (JObj [("kind", JStr "file_open")]) "kind"
  = py_item (JObj [("kind", JStr "file_open"); ("path", JStr "/a")]) "kind"
  /\ dict_get [("kind", JStr "file_open")] "path" = None
  /\ verdict (compare_manifests ref_with_path now_without_path)
     = Ok (JBool false, JList [path_divergence 0 (JStr "/a") JNull]).
Proof. repeat split. Qed.

(** [verify_run] step by step. *)
Lemma verify_run_eq (target : str) (ref : json) (seed : Z) (allow : bool) (w : World) :
  verify_run target ref seed allow w
  = match replay_args ref with
    | Raised e => (Raised e, w)
    | Ok args_line =>
        match run_instrumented target args_line seed allow w with
        | (Ok now, w') => (compare_manifests ref now, w')
        | (Raised e, w') => (Raised e, w')
        end
    end.
Proof.
  unfold verify_run.
  destruct (replay_args ref) as [args_line|e].
  - rewrite (bind_ok (lift (Ok args_line)) _ w w args_line) by reflexivity.
    destruct (run_instrumented target args_line seed allow w) as [[now|e] w'] eqn:Hrun.
    + rewrite (bind_ok _ _ _ _ _ Hrun). reflexivity.
    + rewrite (bind_raised _ _ _ _ _ Hrun). reflexivity.
  - rewrite (bind_raised (lift (Raised e)) _ w w e) by reflexivity.
    reflexivity.
Qed.

Lemma run_instrumented_empty_args (target : str) (seed : Z) (allow : bool) (w : World) :
  run_instrumented target (Some EmptyString) seed allow w
  = run_instrumented target None seed allow w.
Proof.
  unfold run_instrumented.
  change (target_argv target (Some EmptyString)) with (target_argv target None).
  reflexivity.
Qed.

(** C9 (as stated, refuted). The first event of the reference carries no
    [args]: [verify_run] raises nothing, re-runs the target with no
    arguments and reports agreement. *)
Lemma verify_without_args_reruns_target :
  let w := sample_world 1000000 Done in
  let r := verify_run "t.py" ref_without_args 42 false w in
  py_get (JObj [("kind", JStr "rng_seed"); ("lib", JStr "random"); ("seed", JInt 42)])
    "args" JNull = Ok JNull
  /\ replay_args ref_without_args = Ok (Some EmptyString)
  /\ verdict (fst r) = Ok (JBool true, JList []).
Proof.
  split; [reflexivity|]. split; [reflexivity|].
  vm_compute. reflexivity.
Qed.

(** C9 (amended). When the first event of the reference manifest is a
    record without an [args] field, [verify_run] does not fail on it: it
    re-runs the target with the empty argument string, that is with
    [sys.argv = [target]], exactly as for a reference that has no events,
    and compares as usual. *)
Theorem verify_replays_no_arguments_when_args_missing :
  forall (target : str) (d first : dict) (rest : list json) (seed : Z) (allow : bool)
         (w : World),
    dict_get d "events" = Some (JList (JObj first :: rest)) ->
    dict_get first "args" = None ->
    replay_args (JObj d) = Ok (Some EmptyString)
    /\ target_argv target (Some EmptyString) = [target]
    /\ verify_run target (JObj d) seed allow w
       = match run_instrumented target None seed allow w with
         | (Ok now, w') => (compare_manifests (JObj d) now, w')
         | (Raised e, w') => (Raised e, w')
         end.
Proof.
  intros target d first rest seed allow w Hev Hargs.
  assert (Hr : replay_args (JObj d) = Ok (Some EmptyString)).
  { unfold replay_args, py_get. rewrite Hev. cbn [obind truthy py_index nth_error].
    rewrite Hargs. reflexivity. }
  split; [exact Hr|]. split; [reflexivity|].
  rewrite verify_run_eq, Hr, run_instrumented_empty_args. reflexivity.
Qed.

Lemma verify_replays_no_arguments_witness :
  dict_get [("events", JList [JObj [("kind", JStr "rng_seed")]])] "events"
  = Some (JList [JObj [("kind", JStr "rng_seed")]])
  /\ dict_get [("kind", JStr "rng_seed")] "args" = None
  /\ replay_args (JObj [("events", JList [JObj [("kind", JStr "rng_seed")]])])
     = Ok (Some EmptyString).
Proof.
  split; [reflexivity|]. split; [reflexivity|].
  exact (proj1 (verify_replays_no_arguments_when_args_missing
                  "t.py" [("events", JList [JObj [("kind", JStr "rng_seed")]])]
                  [("kind", JStr "rng_seed")] [] 42 false (sample_world 1000000 Done)
                  eq_refl eq_refl)).
Defined.

Lemma compare_fields_agree (i : nat) (e1 e2 eb : json) (keys : list str) :
  (forall key, In key keys -> py_get e1 key JNull = py_get e2 key JNull) ->
  forall diffs,
    compare_fields i e1 eb keys diffs = compare_fields i e2 eb keys diffs.
Proof.
  induction keys as [|key rest IH]; intros H diffs; cbn [compare_fields].
  - reflexivity.
  - rewrite (H key (or_introl eq_refl)).
    destruct (py_get e2 key JNull) as [va|]; cbn [obind]; [|reflexivity].
    destruct (py_get eb key JNull) as [vb|]; cbn [obind]; [|reflexivity].
    destruct (py_ne va vb); apply IH; intros k Hk; apply H; now right.
Qed.

Lemma Forall2_nth_error {A} (R : A -> A -> Prop) (l1 l2 : list A) :
  Forall2 R l1 l2 ->
  forall i,
    match nth_error l1 i, nth_error l2 i with
    | Some x, Some y => R x y
    | None, None => True
    | _, _ => False
    end.
Proof.
  induction 1 as [|x y l1 l2 Hxy _ IH]; intros [|i]; cbn; auto.
  apply IH.
Qed.

Lemma compare_loop_agree (a1 a2 : list json) (b : json) :
  Forall2 agree a1 a2 ->
  forall count i diffs,
    compare_loop count i (JList a1) b diffs = compare_loop count i (JList a2) b diffs.
Proof.
  intros Hag. induction count as [|count IH]; intros i diffs; cbn [compare_loop].
  - reflexivity.
  - cbn [py_index].
    pose proof (Forall2_nth_error _ _ _ Hag i) as Hi.
    destruct (nth_error a1 i) as [e1|], (nth_error a2 i) as [e2|];
      try contradiction; cbn [obind]; [|reflexivity].
    destruct Hi as [Hkind Hfields].
    destruct (py_index b i) as [eb|]; cbn [obind]; [|reflexivity].
    rewrite Hkind.
    destruct (py_item e2 "kind") as [ka|]; cbn [obind]; [|reflexivity].
    destruct (py_item eb "kind") as [kb|]; cbn [obind]; [|reflexivity].
    destruct (py_ne ka kb).
    + apply IH.
    + rewrite (compare_fields_agree i e1 e2 eb compared_keys Hfields).
      destruct (compare_fields i e2 eb compared_keys diffs); cbn [obind];
        [apply IH | reflexivity].
Qed.

Lemma Forall2_same_length {A} (R : A -> A -> Prop) (l1 l2 : list A) :
  Forall2 R l1 l2 -> List.length l1 = List.length l2.
Proof. induction 1; cbn; congruence. Qed.

(** The verdict of the comparison does not depend on anything of the
    reference but the kinds and the six fields of its events. *)
Lemma compare_manifests_agree (d1 d2 : dict) (a1 a2 : list json) (now : json) :
  dict_get d1 "events" = Some (JList a1) ->
  dict_get d2 "events" = Some (JList a2) ->
  Forall2 agree a1 a2 ->
  verdict (compare_manifests (JObj d1) now) = verdict (compare_manifests (JObj d2) now).
Proof.
  intros H1 H2 Hag.
  unfold compare_manifests, py_item at 1 3. rewrite H1, H2. cbn [obind].
  destruct (py_item now "events") as [b|]; cbn [obind]; [|reflexivity].
  cbn [py_len obind]. rewrite (Forall2_same_length _ _ _ Hag).
  destruct (py_len b) as [lb|]; cbn [obind]; [|reflexivity].
  rewrite (compare_loop_agree a1 a2 b Hag).
  destruct (compare_loop (Nat.min (List.length a2) lb) 0 (JList a2) b []) as [diffs|];
    cbn [obind]; [|reflexivity].
  cbn [py_get obind].
  destruct (py_get now "root_hash" JNull); reflexivity.
Qed.

(** C10 (amended). Two reference manifests whose event lists have the
    same length and agree at every index on the kind and on [path],
    [sha256], [bytes], [cmd], [host], [port], and from which the same
    argument string is replayed, get the same [ok] and the same divergence
    list from [verify_run] (or the same failure), whatever their chain
    hashes, root hashes and other fields are. *)
Theorem verify_ignores_chain_and_root_hash :
  forall (target : str) (d1 d2 : dict) (a1 a2 : list json) (seed : Z) (allow : bool)
         (w : World),
    dict_get d1 "events" = Some (JList a1) ->
    dict_get d2 "events" = Some (JList a2) ->
    Forall2 agree a1 a2 ->
    replay_args (JObj d1) = replay_args (JObj d2) ->
    verdict (fst (verify_run target (JObj d1) seed allow w))
    = verdict (fst (verify_run target (JObj d2) seed allow w))
    /\ snd (verify_run target (JObj d1) seed allow w)
       = snd (verify_run target (JObj d2) seed allow w).
Proof.
  intros target d1 d2 a1 a2 seed allow w H1 H2 Hag Hargs.
  rewrite !verify_run_eq, Hargs.
  destruct (replay_args (JObj d2)) as [args_line|e]; [|split; reflexivity].
  destruct (run_instrumented target args_line seed allow w) as [[now|e] w'];
    [|split; reflexivity].
  cbn [fst snd]. split; [|reflexivity].
  exact (compare_manifests_agree d1 d2 a1 a2 now H1 H2 Hag).
Qed.

Lemma agree_refl (e : json) : agree e e.
Proof. split; auto. Qed.

Lemma agree_first_events :
  agree (JObj [("kind", JStr "rng_seed"); ("args", JList [JStr "a.txt"])])
        (JObj [("kind", JStr "rng_seed"); ("args", JList [JStr "b.txt"])]).
Proof.
  split; [reflexivity|].
  intros key Hkey. cbn in Hkey.
  repeat (destruct Hkey as [<-|Hkey]; [reflexivity|]). contradiction.
Qed.

Lemma refs_agree :
  Forall2 agree (events_of (ref_for "a.txt")) (events_of (ref_for "b.txt")).
Proof.
  cbn. constructor; [exact agree_first_events|].
  repeat (constructor; [apply agree_refl|]). constructor.
Qed.

(** C10 (as stated, refuted). The two references agree at every index on
    the kind and on the six compared fields and differ only in the
    arguments recorded with the first event; the target opens the file its
    argument names.  Verification succeeds against the first and fails
    against the second. *)
Lemma verify_depends_on_recorded_args :
  let w := sample_world 1000000 argv_script in
  Forall2 agree (events_of (ref_for "a.txt")) (events_of (ref_for "b.txt"))
  /\ verdict (fst (verify_run "t.py" (ref_for "a.txt") 42 false w))
     = Ok (JBool true, JList [])
  /\ verdict (fst (verify_run "t.py" (ref_for "b.txt") 42 false w))
     = Ok (JBool false,
           JList [path_divergence 3 (JStr "/w/a.txt") (JStr "/w/b.txt");
                  path_divergence 4 (JStr "/w/a.txt") (JStr "/w/b.txt")]).
Proof.
  split; [exact refs_agree|].
  split; vm_compute; reflexivity.
Qed.

Lemma verify_ignores_chain_witness :
  let d1 := [("events", JList [JObj [("kind", JStr "end"); ("chain", JStr "aa")]]);
             ("root_hash", JStr "11")] in
  let d2 := [("events", JList [JObj [("kind", JStr "end"); ("chain", JStr "bb")]]);
             ("root_hash", JStr "22")] in
  let w := sample_world 1000000 Done in
  Forall2 agree [JObj [("kind", JStr "end"); ("chain", JStr "aa")]]
                [JObj [("kind", JStr "end"); ("chain", JStr "bb")]]
  /\ replay_args (JObj d1) = replay_args (JObj d2)
  /\ verdict (fst (verify_run "t.py" (JObj d1) 42 false w))
     = verdict (fst (verify_run "t.py" (JObj d2) 42 false w)).
Proof.
  intros d1 d2 w.
  assert (Hag : Forall2 agree [JObj [("kind", JStr "end"); ("chain", JStr "aa")]]
                  [JObj [("kind", JStr "end"); ("chain", JStr "bb")]]).
  { constructor; [|constructor]. split; [reflexivity|].
    intros key Hkey. cbn in Hkey.
    repeat (destruct Hkey as [<-|Hkey]; [reflexivity|]). contradiction. }
  assert (Hargs : replay_args (JObj d1) = replay_args (JObj d2)) by reflexivity.
  split; [exact Hag|]. split; [exact Hargs|].
  exact (proj1 (verify_ignores_chain_and_root_hash "t.py" d1 d2 _ _ 42 false w
                  eq_refl eq_refl Hag Hargs)).
Defined.

(** * Further properties of the shims *)

(** ** Opening files *)

Lemma abspath_in_absolute (dir p : str) :
  prefix "/" p = true -> abspath_in dir p = p.
Proof. unfold abspath_in. now intros ->. Qed.

Lemma prefix_slash_cons (c : ascii) (s : string) :
  prefix "/" (String c s) = if Ascii.ascii_dec "/" c then true else false.
Proof. cbn [prefix]. destruct (Ascii.ascii_dec "/" c); destruct s; reflexivity. Qed.

Lemma abspath_in_is_absolute (dir p : str) :
  prefix "/" dir = true -> prefix "/" (abspath_in dir p) = true.
Proof.
  unfold abspath_in. intros Hd.
  destruct (prefix "/" p) eqn:Hp; [exact Hp|].
  destruct dir as [|c dir]; [discriminate|].
  change ((String c dir ++ "/" ++ p)%string) with (String c (dir ++ "/" ++ p)%string).
  rewrite prefix_slash_cons in *. exact Hd.
Qed.

(** Inside the wrapper, [hash_file] opens the file through
    [builtins.open], which is the wrapper: the call never bottoms out. *)
Lemma call_open_rb_recurses (fuel : nat) :
  forall (w : World) (orig : open_impl) (p : str),
    builtins_open w = open_wrapper_of orig ->
    prefix "/" p = true ->
    exists_in w p = true ->
    call_open fuel (open_wrapper_of orig) p "rb" w = (Raised RecursionError, w).
Proof.
  induction fuel as [|fuel IH]; intros w orig p Hb Hp Hex.
  - reflexivity.
  - cbn [call_open].
    rewrite (bind_ok (os_path_abspath p) _ w w p)
      by (unfold os_path_abspath, get; now rewrite abspath_in_absolute).
    rewrite (bind_ok (os_path_exists p) _ w w true)
      by (unfold os_path_exists, get; unfold exists_in in Hex; now rewrite Hex).
    change (contains "r" "rb" && true && contains "b" "rb")%bool with true.
    cbv iota.
    apply bind_raised. apply bind_raised.
    rewrite (bind_ok (get builtins_open) _ w w (open_wrapper_of orig))
      by (unfold get; now rewrite Hb).
    apply bind_raised. now apply IH.
Qed.

(** X1. While the wrapper is installed, opening an existing file in any
    mode that contains [r] never returns: [hash_file] re-enters the
    wrapper through [builtins.open] until the interpreter raises
    [RecursionError].  Nothing is logged and the real [open] is never
    reached. *)
Theorem reading_an_existing_file_raises_RecursionError :
  forall (w : World) (orig : open_impl) (path mode : str),
    builtins_open w = open_wrapper_of orig ->
    prefix "/" (cwd w) = true ->
    contains "r" mode = true ->
    exists_in w (abspath_in (cwd w) path) = true ->
    perform (c_open path mode) w = (Raised RecursionError, w).
Proof.
  intros w orig path mode Hb Hcwd Hr Hex.
  unfold perform.
  rewrite (bind_ok (get builtins_open) _ w w (open_wrapper_of orig))
    by (unfold get; now rewrite Hb).
  apply bind_raised.
  rewrite recursion_limit_S. generalize 999%nat. intros fuel.
  cbn [call_open].
  rewrite (bind_ok (os_path_abspath path) _ w w (abspath_in (cwd w) path)) by reflexivity.
  rewrite (bind_ok (os_path_exists (abspath_in (cwd w) path)) _ w w true)
    by (unfold os_path_exists, get; unfold exists_in in Hex; now rewrite Hex).
  rewrite Hr.
  assert (Hrec : call_open fuel (open_wrapper_of orig) (abspath_in (cwd w) path) "rb" w
                 = (Raised RecursionError, w))
    by (apply call_open_rb_recurses; auto using abspath_in_is_absolute).
  apply bind_raised.
  destruct (contains "b" mode); cbn [andb negb]; cbv iota;
    apply bind_raised;
    rewrite (bind_ok (get builtins_open) _ w w (open_wrapper_of orig))
      by (unfold get; now rewrite Hb);
    apply bind_raised; exact Hrec.
Qed.

Lemma reading_an_existing_file_witness :
  builtins_open world_with_file = open_wrapper_of (native_open 0)
  /\ prefix "/" (cwd world_with_file) = true
  /\ contains "r" "r" = true
  /\ exists_in world_with_file (abspath_in (cwd world_with_file) "in.txt") = true
  /\ perform (c_open "in.txt" "r") world_with_file = (Raised RecursionError, world_with_file).
Proof.
  repeat (split; [reflexivity|]).
  exact (reading_an_existing_file_raises_RecursionError world_with_file (native_open 0)
           "in.txt" "r" eq_refl eq_refl eq_refl eq_refl).
Defined.

Lemma real_open_frame (path mode : str) (w : World) :
  logger (snd (real_open path mode w)) = logger w
  /\ real_ops (snd (real_open path mode w)) = (real_ops w ++ [r_open path mode])%list.
Proof.
  unfold real_open, bind, modify, os_path_abspath, os_path_exists, get, raise, ret, new_obj.
  cbn beta iota.
  destruct (negb (mode_letters mode =? 1)%nat); [split; reflexivity|].
  match goal with |- context [if ?c then _ else _] => destruct c end; [split; reflexivity|].
  match goal with |- context [if ?c then _ else _] => destruct c end; [split; reflexivity|].
  match goal with |- context [if ?c then _ else _] => destruct c end; split; reflexivity.
Qed.

(** X2. When the mode has no [r] or the file does not exist, the wrapper
    appends one [file_open] event with the absolute path and the mode and
    only then calls the real [open], exactly once: the event is in the log
    also when the real [open] fails, and that failure is what the caller
    gets. *)
Theorem file_open_is_logged_before_the_real_open :
  forall (w : World) (id : nat) (path mode : str),
    builtins_open w = open_wrapper_of (native_open id) ->
    (contains "r" mode && exists_in w (abspath_in (cwd w) path))%bool = false ->
    let wl := logged "file_open" (file_open_fields w path mode) w in
    let r := perform (c_open path mode) w in
    events (logger (snd r))
    = (events (logger w) ++ [new_event "file_open" (file_open_fields w path mode) w])%list
    /\ real_ops (snd r) = (real_ops w ++ [r_open path mode])%list
    /\ (forall e, fst (real_open path mode wl) = Raised e ->
                  r = (Raised e, snd (real_open path mode wl))).
Proof.
  intros w id path mode Hb Hcond wl r. subst r.
  unfold perform.
  rewrite (bind_ok (get builtins_open) _ w w (open_wrapper_of (native_open id)))
    by (unfold get; now rewrite Hb).
  rewrite recursion_limit_S. generalize 999%nat. intros fuel.
  assert (Hcall :
    call_open (S fuel) (open_wrapper_of (native_open id)) path mode w
    = bind (real_open path mode)
        (fun f => if writes_mode mode
                  then new_obj (ShimObj (mkIOShim f path mode 0 EmptyString))
                  else ret f) wl).
  { cbn [call_open].
    rewrite (bind_ok (os_path_abspath path) _ w w (abspath_in (cwd w) path)) by reflexivity.
    rewrite (bind_ok (os_path_exists (abspath_in (cwd w) path)) _ w w
               (exists_in w (abspath_in (cwd w) path))) by reflexivity.
    rewrite Hcond. cbn [andb]. cbv iota.
    rewrite (bind_ok (log "file_open" _) _ w wl tt) by reflexivity.
    now rewrite call_open_native. }
  destruct (real_open_frame path mode wl) as [Hl Hops].
  destruct (real_open path mode wl) as [[f|e] w1] eqn:Hreal; cbn [fst snd] in *.
  - assert (Hc2 : exists h w2,
              call_open (S fuel) (open_wrapper_of (native_open id)) path mode w = (Ok h, w2)
              /\ logger w2 = logger w1 /\ real_ops w2 = real_ops w1).
    { rewrite Hcall, (bind_ok _ _ _ _ _ Hreal).
      destruct (writes_mode mode); eexists; eexists;
        (split; [reflexivity | split; reflexivity]). }
    destruct Hc2 as (h & w2 & Hc2 & Hl2 & Ho2).
    rewrite (bind_ok _ _ _ _ _ Hc2). unfold ret. cbn [fst snd].
    split; [now rewrite Hl2, Hl|]. split; [now rewrite Ho2, Hops | discriminate].
  - rewrite (bind_raised _ _ _ _ _ (eq_trans Hcall (bind_raised _ _ _ _ _ Hreal))).
    cbn [snd fst]. split; [|split].
    + now rewrite Hl.
    + exact Hops.
    + intros e' He'. now inversion He'.
Qed.

Lemma file_open_is_logged_witness :
  let w := snd (patch_open (snd (EventLogger_init 7 false (sample_world 1000000 Done)))) in
  let r := perform (c_open "missing.txt" "r") w in
  builtins_open w = open_wrapper_of (native_open 0)
  /\ (contains "r" "r" && exists_in w (abspath_in (cwd w) "missing.txt"))%bool = false
  /\ fst r = Raised (FileNotFoundError "missing.txt")
  /\ List.length (events (logger (snd r))) = 1%nat.
Proof.
  intros w r.
  destruct (file_open_is_logged_before_the_real_open w 0 "missing.txt" "r" eq_refl eq_refl)
    as (Hev & _ & Hfail).
  split; [reflexivity|]. split; [reflexivity|]. split.
  - subst r. rewrite (Hfail (FileNotFoundError "missing.txt")); [reflexivity|].
    vm_compute. reflexivity.
  - subst r. rewrite Hev. reflexivity.
Defined.

(** ** Writing and closing *)

(** X3. [IOShim.close] keeps no record of having run: closing the same
    handle a second time succeeds again and appends a second
    [file_write_close] event with the same path, byte count and hash. *)
Theorem closing_twice_logs_twice :
  forall (w : World) (h : nat) (self : IOShim) (raw : rawfile),
    nth_error (objs w) h = Some (ShimObj self) ->
    nth_error (objs w) (_f self) = Some (FileObj raw) ->
    writes_mode (_mode self) = true ->
    let r1 := IOShim_close h w in
    let r2 := IOShim_close h (snd r1) in
    fst r1 = Ok tt /\ fst r2 = Ok tt
    /\ exists e1 e2,
         events (logger (snd r2)) = (events (logger w) ++ [e1; e2])%list
         /\ dict_get e1 "kind" = Some (JStr "file_write_close")
         /\ dict_get e2 "kind" = Some (JStr "file_write_close")
         /\ dict_get e2 "path" = dict_get e1 "path"
         /\ dict_get e2 "bytes" = dict_get e1 "bytes"
         /\ dict_get e2 "sha256" = dict_get e1 "sha256".
Proof.
  intros w h self raw Hh Hf Hm r1 r2. subst r1 r2.
  assert (Hne : h <> _f self) by (intros E; rewrite <- E, Hh in Hf; discriminate).
  rewrite (IOShim_close_eq w h self raw Hh Hf Hm). cbn [fst snd].
  set (w1 := logged "file_write_close" (write_close_fields w self)
               (after_raw_close (_f self) raw w)).
  assert (Hh1 : nth_error (objs w1) h = Some (ShimObj self)).
  { change (objs w1) with (replace_nth (objs w) (_f self) (FileObj (closed raw))).
    rewrite nth_error_replace_other; auto. }
  assert (Hf1 : nth_error (objs w1) (_f self) = Some (FileObj (closed raw))).
  { change (objs w1) with (replace_nth (objs w) (_f self) (FileObj (closed raw))).
    apply (nth_error_replace_same _ _ _ _ Hf). }
  rewrite (IOShim_close_eq w1 h self (closed raw) Hh1 Hf1 Hm). cbn [fst snd].
  split; [reflexivity|]. split; [reflexivity|].
  eexists. eexists. split.
  - rewrite logged_events.
    change (events (logger (after_raw_close (_f self) (closed raw) w1)))
      with (events (logger w1)).
    unfold w1 at 1. rewrite logged_events.
    change (events (logger (after_raw_close (_f self) raw w))) with (events (logger w)).
    rewrite <- app_assoc. reflexivity.
  - repeat split; reflexivity.
Qed.

Lemma closing_twice_witness :
  let w := world_after_open "wb" in
  let r2 := IOShim_close 1 (snd (IOShim_close 1 w)) in
  nth_error (objs w) 1 = Some (ShimObj (mkIOShim 0 "out.txt" "wb" 0 EmptyString))
  /\ nth_error (objs w) 0 = Some (FileObj (mkRaw "/w/out.txt" "wb" false))
  /\ writes_mode "wb" = true
  /\ fst r2 = Ok tt
  /\ List.length (events (logger (snd r2))) = (List.length (events (logger w)) + 2)%nat.
Proof.
  intros w r2.
  assert (Hh : nth_error (objs w) 1
               = Some (ShimObj (mkIOShim 0 "out.txt" "wb" 0 EmptyString)))
    by (vm_compute; reflexivity).
  assert (Hf : nth_error (objs w) 0 = Some (FileObj (mkRaw "/w/out.txt" "wb" false)))
    by (vm_compute; reflexivity).
  destruct (closing_twice_logs_twice w 1 _ _ Hh Hf eq_refl)
    as (_ & Hok & e1 & e2 & Hev & _).
  repeat (split; [first [assumption | reflexivity]|]).
  subst r2. rewrite Hev, length_app. reflexivity.
Defined.

(** X4. On a handle whose file was opened in text mode, [IOShim.write]
    always fails: text is encoded to bytes before it is handed to the
    file, and a text file rejects bytes and every other bytes-like
    payload.  Nothing reaches the file, yet the shim has already counted
    and hashed the payload, so the later [file_write_close] event reports
    bytes that were never written. *)
Theorem text_mode_write_fails_but_is_counted :
  forall (w : World) (h : nat) (self : IOShim) (raw : rawfile) (b : payload),
    nth_error (objs w) h = Some (ShimObj self) ->
    nth_error (objs w) (_f self) = Some (FileObj raw) ->
    f_closed raw = false ->
    contains "r" (f_mode raw) = false ->
    contains "b" (f_mode raw) = false ->
    let r := IOShim_write h b w in
    fst r = Raised (TypeError ("write() argument must be str, not "
                               ++ payload_type (encoded b)))
    /\ fs (snd r) = fs w
    /\ real_ops (snd r) = real_ops w
    /\ nth_error (objs (snd r)) h
       = Some (ShimObj (absorb (data_len (encoded b)) (payload_bytes b) self)).
Proof.
  intros w h self raw b Hh Hf Hc Hr Hb r. subst r.
  assert (Hne : h <> _f self) by (intros E; rewrite <- E, Hh in Hf; discriminate).
  unfold IOShim_write. rewrite recursion_limit_S. generalize 999%nat. intros fuel.
  rewrite obj_write_eq, Hh. cbv beta iota. rewrite payload_bytes_encoded.
  set (w1 := set_objs _ w).
  assert (Hf1 : nth_error (objs w1) (_f self) = Some (FileObj raw))
    by (subst w1; cbn [objs set_objs]; rewrite nth_error_replace_other; auto).
  assert (Hh1 : nth_error (objs w1) h
                = Some (ShimObj (absorb (data_len (encoded b)) (payload_bytes b) self)))
    by (subst w1; cbn [objs set_objs]; apply (nth_error_replace_same _ _ _ _ Hh)).
  rewrite obj_write_eq, Hf1. cbv beta iota.
  unfold raw_write. rewrite Hc, Hr, Hb. cbn [andb]. cbv iota.
  assert (Hfs : fs w1 = fs w) by reflexivity.
  assert (Hops : real_ops w1 = real_ops w) by reflexivity.
  clearbody w1.
  destruct b as [s|d|v]; cbn [encoded payload_type]; unfold raise; cbn [fst snd];
    (split; [reflexivity|]); (split; [exact Hfs|]); (split; [exact Hops|]);
    exact Hh1.
Qed.

Lemma text_mode_write_witness :
  let w := world_after_open "w" in
  let r := IOShim_write 1 (PStr "hi") w in
  nth_error (objs w) 1 = Some (ShimObj (mkIOShim 0 "out.txt" "w" 0 EmptyString))
  /\ nth_error (objs w) 0 = Some (FileObj (mkRaw "/w/out.txt" "w" false))
  /\ fst r = Raised (TypeError "write() argument must be str, not bytes")
  /\ nth_error (objs (snd r)) 1 = Some (ShimObj (mkIOShim 0 "out.txt" "w" 2 "hi")).
Proof.
  intros w r.
  assert (Hh : nth_error (objs w) 1
               = Some (ShimObj (mkIOShim 0 "out.txt" "w" 0 EmptyString)))
    by (vm_compute; reflexivity).
  assert (Hf : nth_error (objs w) 0 = Some (FileObj (mkRaw "/w/out.txt" "w" false)))
    by (vm_compute; reflexivity).
  destruct (text_mode_write_fails_but_is_counted w 1 _ _ (PStr "hi") Hh Hf
              eq_refl eq_refl eq_refl) as (Hr & _ & _ & Ho).
  repeat (split; [assumption|]). exact Ho.
Defined.

Lemma write_results_cons (h : nat) (b : payload) (rest : list payload) (w : World) :
  write_results h (b :: rest) w
  = fst (IOShim_write h b w) :: write_results h rest (snd (IOShim_write h b w)).
Proof. reflexivity. Qed.

(** The loop of [writelines], from any running total. *)
Lemma writelines_loop_spec (h : nat) (lines : list payload) :
  forall (w : World) (acc : Z),
    match writelines_loop recursion_limit h lines acc w with
    | (Ok total, w') =>
        exists counts,
          write_results h lines w = map Ok counts
          /\ total = acc + fold_right Z.add 0 counts
          /\ w' = write_all h lines w
    | (Raised e, w') =>
        exists done line rest counts,
          lines = (done ++ line :: rest)%list
          /\ write_results h done w = map Ok counts
          /\ IOShim_write h line (write_all h done w) = (Raised e, w')
    end.
Proof.
  induction lines as [|line rest IH]; intros w acc.
  - exists []. cbn [fold_right]. rewrite Z.add_0_r. repeat split.
  - cbn [writelines_loop]. fold (IOShim_write h line).
    destruct (IOShim_write h line w) as [[n|e] w1] eqn:Hw.
    + rewrite (bind_ok _ _ _ _ _ Hw).
      specialize (IH w1 (acc + n)).
      destruct (writelines_loop recursion_limit h rest (acc + n) w1) as [[m|e] w2].
      * destruct IH as (counts & Hres & Htot & Hw2).
        exists (n :: counts).
        rewrite write_results_cons, write_all_cons, Hw. cbn [fst snd map fold_right].
        rewrite Hres. repeat split; [lia | exact Hw2].
      * destruct IH as (done & l & rest' & counts & Hl & Hres & Hfail).
        exists (line :: done), l, rest', (n :: counts).
        rewrite write_results_cons. cbn [app]. rewrite write_all_cons, Hw.
        cbn [fst snd map]. rewrite Hres, Hl. repeat split. exact Hfail.
    + rewrite (bind_raised _ _ _ _ _ Hw).
      exists [], line, rest, []. repeat split. exact Hw.
Qed.

(** X5. [IOShim.writelines] is [write] on each line in turn.  It
    returns only when every write has returned, with the sum of what the
    writes returned, and leaves the handle in the state the separate
    writes leave.  Otherwise it ends with the failure of the first write
    that fails, in the state right after that write: the writes before it
    all returned, and the lines after it are never written or counted. *)
Theorem writelines_is_write_in_sequence :
  forall (lines : list payload) (h : nat) (w : World),
    match IOShim_writelines h lines w with
    | (Ok total, w') =>
        exists counts,
          write_results h lines w = map Ok counts
          /\ total = fold_right Z.add 0 counts
          /\ w' = write_all h lines w
    | (Raised e, w') =>
        exists done line rest counts,
          lines = (done ++ line :: rest)%list
          /\ write_results h done w = map Ok counts
          /\ IOShim_write h line (write_all h done w) = (Raised e, w')
    end.
Proof.
  intros lines h w. unfold IOShim_writelines.
  pose proof (writelines_loop_spec h lines w 0) as H.
  destruct (writelines_loop recursion_limit h lines 0 w) as [[total|e] w']; exact H.
Qed.

(** * Invariants of the log across a run *)

Section LogInvariant.

Variable I : EventLogger -> Prop.
Hypothesis I_log : log_closed I.

Lemma keeps_ret {A} (a : A) : keeps I (ret a).
Proof. intros w H. exact H. Qed.

Lemma keeps_raise {A} (e : exn) : keeps I (@raise A e).
Proof. intros w H. exact H. Qed.

Lemma keeps_get {A} (f : World -> A) : keeps I (get f).
Proof. intros w H. exact H. Qed.

Lemma keeps_lift {A} (r : outcome A) : keeps I (lift r).
Proof. intros w H. exact H. Qed.

Lemma keeps_modify (f : World -> World) :
  (forall w, logger (f w) = logger w) -> keeps I (modify f).
Proof. intros Hf w H. cbn. now rewrite Hf. Qed.

Lemma keeps_bind {A B} (m : M A) (k : A -> M B) :
  keeps I m -> (forall a, keeps I (k a)) -> keeps I (bind m k).
Proof.
  intros Hm Hk w H. unfold bind.
  specialize (Hm w H). destruct (m w) as [[a|e] w']; cbn [snd] in Hm |- *.
  - now apply Hk.
  - exact Hm.
Qed.

Lemma keeps_try_finally {A} (body : M A) (final : M unit) :
  keeps I body -> keeps I final -> keeps I (try_finally body final).
Proof.
  intros Hb Hf w H. unfold try_finally.
  specialize (Hb w H). destruct (body w) as [r w']. cbn [snd] in Hb.
  specialize (Hf w' Hb). destruct (final w') as [[u|e] w'']; exact Hf.
Qed.

Lemma keeps_try_except {A} (body : M A) (handler : exn -> M A) :
  keeps I body -> (forall e, keeps I (handler e)) -> keeps I (try_except body handler).
Proof.
  intros Hb Hh w H. unfold try_except.
  specialize (Hb w H). destruct (body w) as [[a|e] w']; cbn [snd] in Hb |- *.
  - exact Hb.
  - destruct (exc_is_Exception e); [now apply Hh | exact Hb].
Qed.

Lemma keeps_log (kind : str) (fields : dict) :
  dict_get fields "chain" = None -> keeps I (log kind fields).
Proof. intros Hf w H. rewrite log_eq. now apply I_log. Qed.

Lemma keeps_new_obj (o : obj) : keeps I (new_obj o).
Proof. intros w H. exact H. Qed.

Lemma keeps_get_obj (id : nat) : keeps I (get_obj id).
Proof. intros w H. unfold get_obj. now destruct (nth_error (objs w) id). Qed.

Lemma keeps_set_obj (id : nat) (o : obj) : keeps I (set_obj id o).
Proof. intros w H. exact H. Qed.

Ltac keeps_step :=
  lazymatch goal with
  | |- keeps _ (ret _) => apply keeps_ret
  | |- keeps _ (raise _) => apply keeps_raise
  | |- keeps _ (get _) => apply keeps_get
  | |- keeps _ (lift _) => apply keeps_lift
  | |- keeps _ (new_obj _) => apply keeps_new_obj
  | |- keeps _ (get_obj _) => apply keeps_get_obj
  | |- keeps _ (set_obj _ _) => apply keeps_set_obj
  | |- keeps _ (log _ _) => apply keeps_log; reflexivity
  | |- keeps _ (modify _) => apply keeps_modify; intros; reflexivity
  | |- keeps _ (bind _ _) => apply keeps_bind; [| intros ?]
  | |- keeps _ (try_finally _ _) => apply keeps_try_finally
  | |- keeps _ (try_except _ _) => apply keeps_try_except; [| intros ?]
  | |- keeps _ (if ?c then _ else _) => destruct c
  | |- keeps _ (match ?x with _ => _ end) => destruct x
  end.

Ltac keeps_auto := repeat keeps_step.

Lemma keeps_real_open (path mode : str) : keeps I (real_open path mode).
Proof. unfold real_open, os_path_abspath, os_path_exists. keeps_auto. Qed.

Lemma keeps_raw_write (f : rawfile) (b : payload) : keeps I (raw_write f b).
Proof. unfold raw_write. keeps_auto. Qed.

Lemma keeps_raw_close (id : nat) (f : rawfile) : keeps I (raw_close id f).
Proof. unfold raw_close. keeps_auto. Qed.

Lemma keeps_obj_write (fuel : nat) : forall h b, keeps I (obj_write fuel h b).
Proof.
  induction fuel as [|fuel IH]; intros h b; cbn [obj_write]; keeps_auto;
    try apply keeps_raw_write.
  apply IH.
Qed.

Lemma keeps_writelines_loop (fuel h : nat) (lines : list payload) :
  forall total, keeps I (writelines_loop fuel h lines total).
Proof.
  induction lines as [|line rest IH]; intros total; cbn [writelines_loop]; keeps_auto.
  - apply keeps_obj_write.
  - apply IH.
Qed.

Lemma keeps_obj_close (fuel : nat) : forall h, keeps I (obj_close fuel h).
Proof.
  induction fuel as [|fuel IH]; intros h; cbn [obj_close]; unfold os_path_abspath;
    keeps_auto; try apply keeps_raw_close.
  apply IH.
Qed.

Lemma keeps_call_open (fuel : nat) :
  forall f path mode, keeps I (call_open fuel f path mode).
Proof.
  induction fuel as [|fuel IH]; intros f path mode; cbn [call_open];
    unfold os_path_abspath, os_path_exists;
    keeps_auto;
    lazymatch goal with
    | |- keeps _ (real_open _ _) => apply keeps_real_open
    | |- keeps _ (raw_close _ _) => apply keeps_raw_close
    | |- keeps _ (call_open _ _ _ _) => apply IH
    end.
Qed.

Lemma keeps_sock_connect (cls : socket_impl) (host port : json) :
  keeps I (sock_connect cls host port).
Proof.
  induction cls as [id|allow super IH]; cbn [sock_connect]; unfold real_connect;
    keeps_auto; try assumption.
Qed.

Lemma keeps_sock_send (cls : socket_impl) (data : payload) :
  keeps I (sock_send cls data).
Proof.
  induction cls as [id|allow super IH]; cbn [sock_send]; unfold real_send;
    keeps_auto; try assumption.
Qed.

Lemma keeps_sock_recv (cls : socket_impl) (bufsize : Z) :
  keeps I (sock_recv cls bufsize).
Proof.
  induction cls as [id|allow super IH]; cbn [sock_recv]; unfold real_recv;
    keeps_auto; try assumption.
Qed.

Lemma keeps_popen_init (cls : popen_impl) (args : popen_args) :
  keeps I (popen_init cls args).
Proof.
  induction cls as [id|super IH]; cbn [popen_init]; keeps_auto; try assumption.
Qed.

Lemma keeps_perform (c : call) : keeps I (perform c).
Proof.
  destruct c; unfold perform, IOShim_writelines; keeps_auto;
    lazymatch goal with
    | |- keeps _ (call_open _ _ _ _) => apply keeps_call_open
    | |- keeps _ (obj_write _ _ _) => apply keeps_obj_write
    | |- keeps _ (obj_close _ _) => apply keeps_obj_close
    | |- keeps _ (writelines_loop _ _ _ _) => apply keeps_writelines_loop
    | |- keeps _ (sock_connect _ _ _) => apply keeps_sock_connect
    | |- keeps _ (sock_send _ _) => apply keeps_sock_send
    | |- keeps _ (sock_recv _ _) => apply keeps_sock_recv
    | |- keeps _ (popen_init _ _) => apply keeps_popen_init
    end.
Qed.

Lemma keeps_run_script (s : Script) : keeps I (run_script s).
Proof.
  induction s as [| e | c k IH]; cbn [run_script].
  - apply keeps_ret.
  - apply keeps_raise.
  - intros w H. pose proof (keeps_perform c w H) as Hp.
    destruct (perform c w) as [r w']. cbn [snd] in Hp. now apply IH.
Qed.

Lemma keeps_seed_all (seed : Z) : keeps I (seed_all seed).
Proof. unfold seed_all. keeps_auto. Qed.

Lemma keeps_guarded_run (target : str) (w : World) :
  I (logger w) -> I (logger (snd (guarded_run target w))).
Proof.
  intros H. unfold guarded_run.
  assert (Hb : I (logger (logged "begin" (begin_fields target w) w)))
    by (apply I_log; [reflexivity | exact H]).
  pose proof (keeps_run_script (source (logged "begin" (begin_fields target w) w) target)
                _ Hb) as Hr.
  destruct (run_script _ _) as [[u|e] w']; cbn [snd] in Hr |- *.
  - apply I_log; [reflexivity | exact Hr].
  - destruct (exc_is_Exception e); cbn [snd]; [|exact Hr].
    apply I_log; [reflexivity | exact Hr].
Qed.

Lemma logger_restored (w0 w : World) : logger (restored w0 w) = logger w.
Proof. reflexivity. Qed.

Lemma keeps_set_sys_argv (a : list str) (w : World) :
  I (logger w) -> I (logger (set_sys_argv a w)).
Proof. intros H. exact H. Qed.

Lemma keeps_patched (allow : bool) (w : World) :
  I (logger w) -> I (logger (patched allow w)).
Proof. intros H. exact H. Qed.

Lemma prepared_keeps (target : str) (args_line : option str) (seed : Z)
    (allow : bool) (w : World) :
  I (fresh_logger seed allow w) ->
  I (logger (prepared target args_line seed allow w)).
Proof.
  intros H0.
  exact (keeps_set_sys_argv _ _
           (keeps_seed_all seed _
              (keeps_patched allow (snd (EventLogger_init seed allow w)) H0))).
Qed.

Lemma run_instrumented_logger (target : str) (args_line : option str) (seed : Z)
    (allow : bool) (w : World) :
  logger (snd (run_instrumented target args_line seed allow w))
  = logger (snd (guarded_run target (prepared target args_line seed allow w))).
Proof.
  rewrite run_instrumented_eq. cbv zeta.
  destruct (guarded_run target (prepared target args_line seed allow w)) as [[u|e] w'];
    reflexivity.
Qed.

(** Whatever holds of the fresh logger and survives every append holds
    of the logger when [run_instrumented] is done. *)
Lemma run_instrumented_keeps (target : str) (args_line : option str) (seed : Z)
    (allow : bool) (w : World) :
  I (fresh_logger seed allow w) ->
  I (logger (snd (run_instrumented target args_line seed allow w))).
Proof.
  intros H0. rewrite run_instrumented_logger.
  apply keeps_guarded_run. now apply prepared_keeps.
Qed.

End LogInvariant.

(** ** What the invariants give *)

Lemma extends_log_closed (evs : list event) : log_closed (extends evs).
Proof.
  intros w kind fields _ [rest H]. exists (rest ++ [new_event kind fields w])%list.
  rewrite logged_events, H. now rewrite app_assoc.
Qed.

(** X6. The log only grows: whatever a target does through the
    intercepted calls (opening, writing, closing, network, spawning,
    rebinding), the events logged before are still there, unchanged and in
    the same order, followed by the new ones. *)
Theorem log_is_append_only :
  forall (s : Script) (w : World),
    exists rest,
      events (logger (snd (run_script s w))) = (events (logger w) ++ rest)%list.
Proof.
  intros s w.
  apply (keeps_run_script (extends (events (logger w))) (extends_log_closed _) s w).
  exists []. now rewrite app_nil_r.
Qed.

Lemma dict_get_update_none (more d : dict) (k : str) :
  dict_get d k = None -> dict_get more k = None -> dict_get (dict_update d more) k = None.
Proof.
  unfold dict_update. revert d.
  induction more as [|[k' v'] more IH]; intros d Hd Hm; cbn [fold_left fst snd].
  - exact Hd.
  - unfold dict_get in Hm. cbn [assoc_get] in Hm.
    destruct (String.eqb k' k) eqn:E; [discriminate|].
    apply IH; [|exact Hm].
    rewrite dict_get_set_other; [exact Hd|].
    intros ->. now rewrite String.eqb_refl in E.
Qed.

Lemma unchain_without_chain (d : dict) :
  dict_get d "chain" = None -> unchain d = d.
Proof.
  unfold dict_get, unchain.
  induction d as [|[k v] d IH]; cbn [assoc_get filter fst]; intros H.
  - reflexivity.
  - destruct (String.eqb k "chain"); [discriminate|]. cbn [negb]. now rewrite IH.
Qed.

Lemma unchain_dict_set (d : dict) (v : json) :
  dict_get d "chain" = None -> unchain (dict_set d "chain" v) = d.
Proof.
  unfold dict_get, unchain.
  induction d as [|[k x] d IH]; cbn [assoc_get dict_set filter fst]; intros H.
  - reflexivity.
  - destruct (String.eqb k "chain") eqn:E; [discriminate|].
    cbn [filter fst]. rewrite E. cbn [negb]. now rewrite IH.
Qed.

Lemma pre_event_without_chain (start now : Z) (kind : str) (fields : dict) :
  dict_get fields "chain" = None ->
  dict_get (pre_event start now kind fields) "chain" = None.
Proof. intros H. unfold pre_event. now apply dict_get_update_none. Qed.

Lemma verify_chain_app (evs : list event) (e : event) :
  forall prev,
    verify_chain prev (evs ++ [e])
    = (verify_chain prev evs && verify_chain (chain_end prev evs) [e])%bool.
Proof.
  induction evs as [|x evs IH]; intros prev.
  - reflexivity.
  - cbn [app verify_chain]. rewrite IH. unfold chain_end. cbn [fold_left].
    now rewrite andb_assoc.
Qed.

Lemma chain_end_app (evs : list event) (e : event) (prev : str) :
  chain_end prev (evs ++ [e]) = chain_hash (chain_end prev evs) (unchain e).
Proof. unfold chain_end. now rewrite fold_left_app. Qed.

Lemma chain_consistent_log_closed : log_closed chain_consistent.
Proof.
  intros w kind fields Hf [Hv Hp]. unfold chain_consistent.
  rewrite logged_events. unfold new_event, stamp.
  set (pre := pre_event (start_mono (logger w)) (clock w (clock_reads w)) kind fields).
  assert (Hpre : dict_get pre "chain" = None) by now apply pre_event_without_chain.
  rewrite verify_chain_app, chain_end_app, Hv.
  cbn [verify_chain andb]. rewrite dict_get_set_same, unchain_dict_set by exact Hpre.
  rewrite <- Hp, String.eqb_refl. split; reflexivity.
Qed.

Lemma manifest_of (w : World) :
  exists m,
    manifest w = (Ok m, w)
    /\ py_item m "events" = Ok (JList (map JObj (events (logger w))))
    /\ py_item m "root_hash"
       = Ok (JStr (_hash_dict [("events", JList (map JObj (events (logger w))))])).
Proof. eexists. repeat split. Qed.

(** The manifest [run_instrumented] returns is the manifest of the logger
    it leaves. *)
Lemma run_instrumented_manifest (target : str) (args_line : option str) (seed : Z)
    (allow : bool) (w w' : World) (m : json) :
  run_instrumented target args_line seed allow w = (Ok m, w') ->
  manifest w' = (Ok m, w').
Proof.
  rewrite run_instrumented_eq. cbv zeta.
  destruct (guarded_run target (prepared target args_line seed allow w)) as [[u|e] w1];
    [|discriminate].
  destruct (manifest_of (restored (snd (EventLogger_init seed allow w)) w1))
    as (m' & Hm & _).
  rewrite Hm. intros H. inversion H; subst. exact Hm.
Qed.

(** X7. The manifest of a completed run passes a recomputation of its
    chain: starting from sixty-four zeros, every stored chain hash is the
    hash of the previous one with the hash of the event without its chain
    field; and the root hash is the hash of the event list. *)
Theorem produced_manifest_chain_verifies :
  forall (target : str) (args_line : option str) (seed : Z) (allow : bool)
         (w w' : World) (m : json),
    run_instrumented target args_line seed allow w = (Ok m, w') ->
    exists evs,
      py_item m "events" = Ok (JList (map JObj evs))
      /\ verify_chain (zeros 64) evs = true
      /\ py_item m "root_hash" = Ok (JStr (_hash_dict [("events", JList (map JObj evs))])).
Proof.
  intros target args_line seed allow w w' m Hrun.
  pose proof (run_instrumented_keeps chain_consistent chain_consistent_log_closed
                target args_line seed allow w (conj eq_refl eq_refl)) as [Hv _].
  rewrite Hrun in Hv. cbn [snd] in Hv.
  pose proof (run_instrumented_manifest _ _ _ _ _ _ _ Hrun) as Hm.
  destruct (manifest_of w') as (m' & Hm' & Hev & Hroot).
  rewrite Hm in Hm'. inversion Hm'; subst m'.
  exists (events (logger w')). repeat split; assumption.
Qed.

Lemma produced_manifest_chain_witness :
  let r := run_instrumented "t.py" None 42 false (sample_world 1000000 write_script) in
  exists m evs,
    fst r = Ok m
    /\ py_item m "events" = Ok (JList (map JObj evs))
    /\ verify_chain (zeros 64) evs = true.
Proof.
  intros r.
  assert (H : exists m, fst r = Ok m) by (eexists; vm_compute; reflexivity).
  destruct H as [m Hm].
  assert (Hr : run_instrumented "t.py" None 42 false (sample_world 1000000 write_script)
               = (Ok m, snd r))
    by (rewrite <- Hm; apply surjective_pairing).
  destruct (produced_manifest_chain_verifies _ _ _ _ _ _ _ Hr) as (evs & He & Hv & _).
  exists m, evs. repeat split; assumption.
Defined.

Lemma new_event_get_other (kind : str) (fields : dict) (w : World) (k : str) :
  k <> "chain" -> dict_get [("t", JNull); ("kind", JNull)] k = None ->
  dict_get fields k = None ->
  dict_get (new_event kind fields w) k = None.
Proof.
  intros Hc Hk Hf. unfold new_event, stamp.
  rewrite dict_get_set_other by (intros E; apply Hc; now rewrite E).
  unfold pre_event. apply dict_get_update_none; [|exact Hf].
  unfold dict_get in *. cbn [assoc_get fst snd] in *.
  destruct (String.eqb "t" k); [discriminate|].
  destruct (String.eqb "kind" k); [discriminate|]. reflexivity.
Qed.

(** The first thing [seed_all] logs is the seeding of [random]. *)
Lemma seed_all_first_event (seed : Z) (w : World) :
  exists rest,
    events (logger (snd (seed_all seed w)))
    = (events (logger w)
       ++ new_event "rng_seed" [("lib", JStr "random"); ("seed", JInt seed)]
            (set_random_seed (Some seed) w) :: rest)%list.
Proof.
  pose (w1 := logged "rng_seed" [("lib", JStr "random"); ("seed", JInt seed)]
                (set_random_seed (Some seed) w)).
  assert (H1 : extends (events (logger w1)) (logger w1))
    by (exists []; now rewrite app_nil_r).
  unfold seed_all.
  rewrite (bind_ok _ _ w (set_random_seed (Some seed) w) tt eq_refl).
  rewrite (bind_ok _ _ _ w1 tt (log_eq _ _ _)).
  match goal with
  | |- exists rest, events (logger (snd (?m w1))) = _ =>
      assert (K : keeps (extends (events (logger w1))) m)
  end.
  { pose proof (extends_log_closed (events (logger w1))) as Hc.
    apply keeps_try_except; [|intros e; now apply keeps_log].
    apply keeps_bind; [apply keeps_get|intros np].
    apply keeps_bind; [destruct np; [apply keeps_ret|apply keeps_raise]|intros _].
    apply keeps_bind; [|intros _; now apply keeps_log].
    destruct (_ && _)%bool; [now apply keeps_modify|apply keeps_raise]. }
  destruct (K w1 H1) as [rest Hrest].
  exists rest. rewrite Hrest. unfold w1. rewrite logged_events.
  now rewrite <- app_assoc.
Qed.

Lemma dict_get_update_other (more d : dict) (k : str) :
  dict_get more k = None -> dict_get (dict_update d more) k = dict_get d k.
Proof.
  unfold dict_update. revert d.
  induction more as [|[k' v'] more IH]; intros d Hm; cbn [fold_left fst snd].
  - reflexivity.
  - unfold dict_get in Hm. cbn [assoc_get] in Hm.
    destruct (String.eqb k' k) eqn:E; [discriminate|].
    rewrite IH by exact Hm.
    apply dict_get_set_other. intros ->. now rewrite String.eqb_refl in E.
Qed.

Lemma new_event_kind (kind : str) (fields : dict) (w : World) :
  dict_get fields "kind" = None ->
  dict_get (new_event kind fields w) "kind" = Some (JStr kind).
Proof.
  intros Hf. unfold new_event, stamp.
  rewrite dict_get_set_other by discriminate.
  unfold pre_event. now rewrite dict_get_update_other by exact Hf.
Qed.


Lemma logger_set_sys_argv (a : list str) (w : World) :
  logger (set_sys_argv a w) = logger w.
Proof. reflexivity. Qed.

Lemma fresh_events (seed : Z) (allow : bool) (w : World) :
  events (logger (patched allow (snd (EventLogger_init seed allow w)))) = [].
Proof. reflexivity. Qed.

Lemma prepared_first_event (target : str) (args_line : option str) (seed : Z)
    (allow : bool) (w : World) :
  exists e1 rest,
    events (logger (prepared target args_line seed allow w)) = e1 :: rest
    /\ seeding_record e1.
Proof.
  destruct (seed_all_first_event seed (patched allow (snd (EventLogger_init seed allow w))))
    as [rest H].
  rewrite fresh_events, app_nil_l in H.
  exists (new_event "rng_seed" [("lib", JStr "random"); ("seed", JInt seed)]
            (set_random_seed (Some seed)
               (patched allow (snd (EventLogger_init seed allow w))))).
  exists rest. split.
  - unfold prepared. rewrite logger_set_sys_argv. exact H.
  - split.
    + now apply new_event_kind.
    + now apply new_event_get_other.
Qed.

Lemma run_instrumented_first_event (target : str) (args_line : option str) (seed : Z)
    (allow : bool) (w : World) :
  exists e1 rest,
    events (logger (snd (run_instrumented target args_line seed allow w))) = e1 :: rest
    /\ seeding_record e1.
Proof.
  destruct (prepared_first_event target args_line seed allow w) as (e1 & rest0 & H0 & Hs).
  assert (Hi : extends [e1] (logger (prepared target args_line seed allow w)))
    by (exists rest0; exact H0).
  rewrite run_instrumented_logger.
  destruct (keeps_guarded_run (extends [e1]) (extends_log_closed [e1]) target _ Hi)
    as [rest Hr].
  exists e1, rest. split; [exact Hr | exact Hs].
Qed.

Lemma replay_args_manifest (w : World) (m : json) (e1 : event) (rest : list event) :
  manifest w = (Ok m, w) -> events (logger w) = e1 :: rest ->
  dict_get e1 "args" = None ->
  replay_args m = Ok (Some EmptyString).
Proof.
  intros Hm He Ha. unfold manifest in Hm. cbn in Hm. inversion Hm as [Hm']. clear Hm Hm'.
  unfold replay_args, py_get. cbn. rewrite He. cbn. rewrite Ha. reflexivity.
Qed.

(** X8. A manifest that [run_instrumented] produced, with whatever
    arguments, starts with the record of seeding [random], which has no
    [args] field.  So verifying against it re-runs the target with no
    arguments at all. *)
Theorem produced_manifest_replays_no_arguments :
  forall (target : str) (args_line : option str) (seed : Z) (allow : bool)
         (w w' : World) (m : json),
    run_instrumented target args_line seed allow w = (Ok m, w') ->
    (exists first rest,
        py_item m "events" = Ok (JList (map JObj (first :: rest)))
        /\ seeding_record first)
    /\ replay_args m = Ok (Some EmptyString)
    /\ forall target' seed' allow' w2,
         verify_run target' m seed' allow' w2
         = match run_instrumented target' None seed' allow' w2 with
           | (Ok now, w3) => (compare_manifests m now, w3)
           | (Raised e, w3) => (Raised e, w3)
           end.
Proof.
  intros target args_line seed allow w w' m Hrun.
  destruct (run_instrumented_first_event target args_line seed allow w)
    as (e1 & rest & He & Hs).
  rewrite Hrun in He. cbn [snd] in He.
  pose proof (run_instrumented_manifest _ _ _ _ _ _ _ Hrun) as Hm.
  assert (Hr : replay_args m = Ok (Some EmptyString))
    by exact (replay_args_manifest w' m e1 rest Hm He (proj2 Hs)).
  split; [|split; [exact Hr|]].
  - destruct (manifest_of w') as (m' & Hm' & Hev & _).
    rewrite Hm in Hm'. inversion Hm'; subst m'.
    rewrite He in Hev. exists e1, rest. split; [exact Hev | exact Hs].
  - intros target' seed' allow' w2.
    rewrite verify_run_eq, Hr, run_instrumented_empty_args. reflexivity.
Qed.

Lemma produced_manifest_replays_witness :
  let r := run_instrumented "t.py" (Some "out.txt") 42 false
             (sample_world 1000000 argv_script) in
  exists m, fst r = Ok m /\ replay_args m = Ok (Some EmptyString).
Proof.
  intros r.
  assert (H : exists m, fst r = Ok m) by (eexists; vm_compute; reflexivity).
  destruct H as [m Hm].
  assert (Hr : run_instrumented "t.py" (Some "out.txt") 42 false
                 (sample_world 1000000 argv_script)
               = (Ok m, snd r))
    by (rewrite <- Hm; apply surjective_pairing).
  exists m. split; [exact Hm|].
  exact (proj1 (proj2 (produced_manifest_replays_no_arguments _ _ _ _ _ _ _ Hr))).
Defined.

(** ** How a run ends *)

(** X9. When the target ends through an exception that is not of class
    [Exception] ([sys.exit], [KeyboardInterrupt]), [run_instrumented] logs
    no [end] event at all: the log stays as the target left it, the
    exception goes through and no manifest is returned. *)
Theorem exiting_target_logs_no_end_event :
  forall (target : str) (args_line : option str) (seed : Z) (allow : bool)
         (w w' : World) (e : exn),
    let wp := prepared target args_line seed allow w in
    let wb := logged "begin" (begin_fields target wp) wp in
    run_script (source wb target) wb = (Raised e, w') ->
    exc_is_Exception e = false ->
    let r := run_instrumented target args_line seed allow w in
    fst r = Raised e
    /\ logger (snd r) = logger w'
    /\ real_ops (snd r) = real_ops w'.
Proof.
  intros target args_line seed allow w w' e wp wb Hrun Hex r.
  subst r. rewrite run_instrumented_eq. cbv zeta.
  fold wp. unfold guarded_run. fold wb. rewrite Hrun, Hex.
  repeat split.
Qed.

Lemma exiting_target_witness :
  let w := sample_world 1000000 exiting_script in
  let r := run_instrumented "t.py" None 42 false w in
  fst r = Raised (SystemExit 3)
  /\ List.length (events (logger (snd r))) = 3%nat
  /\ dict_get (last_event (snd r)) "kind" = Some (JStr "begin").
Proof.
  intros w r.
  pose (wp := prepared "t.py" None 42 false w).
  pose (wb := logged "begin" (begin_fields "t.py" wp) wp).
  assert (Hrun : run_script (source wb "t.py") wb = (Raised (SystemExit 3), wb))
    by reflexivity.
  destruct (exiting_target_logs_no_end_event "t.py" None 42 false w wb
              (SystemExit 3) Hrun eq_refl) as (Hr & _).
  split; [exact Hr|]. split; vm_compute; reflexivity.
Defined.

Lemma cwd_set_sys_argv (a : list str) (w : World) : cwd (set_sys_argv a w) = cwd w.
Proof. reflexivity. Qed.

Lemma cwd_fresh (seed : Z) (allow : bool) (w : World) :
  cwd (patched allow (snd (EventLogger_init seed allow w))) = cwd w.
Proof. reflexivity. Qed.

Lemma prepared_cwd (target : str) (args_line : option str) (seed : Z)
    (allow : bool) (w : World) :
  cwd (prepared target args_line seed allow w) = cwd w.
Proof.
  unfold prepared. rewrite cwd_set_sys_argv.
  rewrite (proj2 (proj2 (proj2 (seed_all_ok seed _)))).
  apply cwd_fresh.
Qed.

Lemma begin_event_fields (target : str) (args_line : option str) (seed : Z)
    (allow : bool) (w : World) :
  dict_get (new_event "begin"
              (begin_fields target (prepared target args_line seed allow w))
              (prepared target args_line seed allow w)) "args"
  = Some (JList (map JStr (tl (target_argv target args_line))))
  /\ dict_get (new_event "begin"
                 (begin_fields target (prepared target args_line seed allow w))
                 (prepared target args_line seed allow w)) "target"
     = Some (JStr (abspath_in (cwd w) target)).
Proof.
  destruct (prepared_is_patched target args_line seed allow w) as (_ & _ & _ & Hargv).
  cbv zeta in Hargv.
  pose proof (prepared_cwd target args_line seed allow w) as Hc.
  revert Hargv Hc. generalize (prepared target args_line seed allow w).
  intros wp Hargv Hc. unfold begin_fields. rewrite Hargv, Hc.
  split; reflexivity.
Qed.

(** X10. When the target returns normally, [run_instrumented] appends the
    [end] event with status [ok] after everything the target logged,
    restores the bindings and returns the manifest of exactly that log.
    The [begin] event the target ran after records the absolute path of
    the target and the whitespace-split arguments. *)
Theorem completed_run_returns_the_manifest :
  forall (target : str) (args_line : option str) (seed : Z) (allow : bool)
         (w w' : World) (u : unit),
    let wp := prepared target args_line seed allow w in
    let wb := logged "begin" (begin_fields target wp) wp in
    run_script (source wb target) wb = (Ok u, w') ->
    let r := run_instrumented target args_line seed allow w in
    let ending := new_event "end" [("status", JStr "ok")] w' in
    (exists m,
        fst r = Ok m
        /\ py_item m "events" = Ok (JList (map JObj (events (logger w') ++ [ending]))))
    /\ dict_get ending "status" = Some (JStr "ok")
    /\ dict_get (new_event "begin" (begin_fields target wp) wp) "args"
       = Some (JList (map JStr (tl (target_argv target args_line))))
    /\ dict_get (new_event "begin" (begin_fields target wp) wp) "target"
       = Some (JStr (abspath_in (cwd w) target)).
Proof.
  intros target args_line seed allow w w' u wp wb Hrun r ending.
  split; [|split; [reflexivity|]].
  - subst r. rewrite run_instrumented_eq. cbv zeta.
    fold wp. unfold guarded_run. fold wb. rewrite Hrun.
    destruct (manifest_of (restored (snd (EventLogger_init seed allow w))
                             (logged "end" [("status", JStr "ok")] w')))
      as (m & Hm & Hev & _).
    exists m. rewrite Hm. split; [reflexivity|].
    rewrite Hev, logger_restored, logged_events. reflexivity.
  - exact (begin_event_fields target args_line seed allow w).
Qed.

Lemma completed_run_witness :
  let w := sample_world 1000000 Done in
  let r := run_instrumented "t.py" (Some "a  b") 42 false w in
  exists m,
    fst r = Ok m
    /\ List.length (boundary_events m) = 4%nat
    /\ dict_get (last_event (snd r)) "status" = Some (JStr "ok").
Proof.
  intros w r.
  pose (wp := prepared "t.py" (Some "a  b") 42 false w).
  pose (wb := logged "begin" (begin_fields "t.py" wp) wp).
  assert (Hrun : run_script (source wb "t.py") wb = (Ok tt, wb)) by reflexivity.
  destruct (completed_run_returns_the_manifest "t.py" (Some "a  b") 42 false w wb tt Hrun)
    as ((m & Hm & Hev) & _).
  exists m. split; [exact Hm|].
  split.
  - unfold boundary_events. rewrite Hev. rewrite !length_map, length_app.
    vm_compute. reflexivity.
  - vm_compute. reflexivity.
Defined.

(** X11. [seed_all] never fails and always appends two events.  Python's
    generator is seeded with any integer; numpy's only when numpy is
    installed and the seed lies in [0, 2**32): otherwise numpy's state is
    left as it was and the second event is [rng_seed_skip]. *)
Theorem seed_all_skips_numpy_quietly :
  forall (seed : Z) (w : World),
    let r := seed_all seed w in
    let numpy_seeded := (has_numpy w && ((0 <=? seed) && (seed <? 4294967296)))%bool in
    fst r = Ok tt
    /\ random_seed (snd r) = Some seed
    /\ numpy_seed (snd r) = (if numpy_seeded then Some seed else numpy_seed w)
    /\ exists e1 e2,
         events (logger (snd r)) = (events (logger w) ++ [e1; e2])%list
         /\ dict_get e1 "kind" = Some (JStr "rng_seed")
         /\ dict_get e1 "lib" = Some (JStr "random")
         /\ dict_get e2 "kind"
            = Some (JStr (if numpy_seeded then "rng_seed" else "rng_seed_skip"))
         /\ dict_get e2 "lib" = Some (JStr "numpy").
Proof.
  intros seed w.
  unfold seed_all, bind, modify, try_except, get, ret, raise, log,
    _chain, time_monotonic, bind, modify, get, ret.
  cbn.
  destruct (has_numpy w); cbn;
    [destruct ((0 <=? seed) && (seed <? 4294967296))%bool; cbn|];
    (split; [reflexivity|]); (split; [reflexivity|]); (split; [reflexivity|]);
    do 2 eexists; (split; [rewrite <- app_assoc; reflexivity|]); repeat split.
Qed.

Lemma produced_manifest_replays_first (target : str) (args_line : option str) (seed : Z)
    (allow : bool) (w w' : World) (m : json) :
  run_instrumented target args_line seed allow w = (Ok m, w') ->
  exists first rest, py_item m "events" = Ok (JList (map JObj (first :: rest))).
Proof.
  intros Hrun.
  destruct (run_instrumented_first_event target args_line seed allow w)
    as (e1 & rest & He & _).
  rewrite Hrun in He. cbn [snd] in He.
  pose proof (run_instrumented_manifest _ _ _ _ _ _ _ Hrun) as Hm.
  destruct (manifest_of w') as (m' & Hm' & Hev & _).
  rewrite Hm in Hm'. inversion Hm'; subst m'.
  rewrite He in Hev. now exists e1, rest.
Qed.

(** ** Verifying against a reference that records nothing *)

(** X12. A reference manifest without an [events] entry is noticed
    only after the target has been run again: [verify_run] runs it, with
    no arguments and all its effects, and then fails with
    [KeyError('events')]. *)
Theorem verify_runs_target_before_missing_events_is_noticed :
  forall (target : str) (d : dict) (seed : Z) (allow : bool) (w : World),
    dict_get d "events" = None ->
    verify_run target (JObj d) seed allow w
    = match run_instrumented target None seed allow w with
      | (Ok _, w') => (Raised (KeyError "events"), w')
      | (Raised e, w') => (Raised e, w')
      end.
Proof.
  intros target d seed allow w Hd.
  rewrite verify_run_eq.
  assert (Hr : replay_args (JObj d) = Ok None)
    by (unfold replay_args, py_get; now rewrite Hd).
  rewrite Hr.
  destruct (run_instrumented target None seed allow w) as [[now|e] w']; [|reflexivity].
  unfold compare_manifests, py_item. now rewrite Hd.
Qed.

Lemma verify_runs_target_witness :
  fst (verify_run "t.py" (JObj [("seed", JInt 42)]) 42 false
         (sample_world 1000000 write_script))
  = Raised (KeyError "events")
  /\ List.length (real_ops (snd (verify_run "t.py" (JObj [("seed", JInt 42)]) 42 false
                                   (sample_world 1000000 write_script)))) = 3%nat.
Proof.
  rewrite (verify_runs_target_before_missing_events_is_noticed
             "t.py" [("seed", JInt 42)] 42 false (sample_world 1000000 write_script)
             eq_refl).
  split; vm_compute; reflexivity.
Defined.

Lemma compare_with_empty_reference (d : dict) (now : json) (evs : list event) (e1 : event) :
  dict_get d "events" = Some (JList []) ->
  py_item now "events" = Ok (JList (map JObj (e1 :: evs))) ->
  exists root,
    compare_manifests (JObj d) now
    = Ok (JObj [("ok", JBool false);
                ("diffs", JList [diff_entry (JStr "len") None (JInt 0)
                                   (JInt (Z.of_nat (S (List.length evs))))]);
                ("reference_root", match dict_get d "root_hash" with
                                   | Some r => r | None => JNull end);
                ("now_root", root)]).
Proof.
  intros Hd Hnow. unfold compare_manifests.
  unfold py_item at 1. rewrite Hd. cbn [obind]. rewrite Hnow. cbn [obind py_len].
  rewrite length_map. cbn [List.length Nat.min compare_loop obind Nat.eqb negb app py_get].
  destruct now as [| | | | | |dn]; try discriminate.
  cbn [py_get obind]. eexists. reflexivity.
Qed.

(** X13. A reference manifest whose event list is empty never verifies:
    the target is re-run with no arguments and, when the run completes,
    the verdict is [ok = false] with the length difference as its only
    entry, whatever the target did. *)
Theorem empty_reference_never_verifies :
  forall (target : str) (d : dict) (seed : Z) (allow : bool) (w w' : World) (now : json),
    dict_get d "events" = Some (JList []) ->
    run_instrumented target None seed allow w = (Ok now, w') ->
    exists n verdict,
      verify_run target (JObj d) seed allow w = (Ok (JObj verdict), w')
      /\ dict_get verdict "ok" = Some (JBool false)
      /\ dict_get verdict "diffs"
         = Some (JList [diff_entry (JStr "len") None (JInt 0) (JInt (Z.of_nat (S n)))]).
Proof.
  intros target d seed allow w w' now Hd Hrun.
  destruct (produced_manifest_replays_first target None seed allow w w' now Hrun)
    as (e1 & rest & Hev).
  destruct (compare_with_empty_reference d now rest e1 Hd Hev) as [root Hc].
  exists (List.length rest). eexists.
  rewrite verify_run_eq.
  assert (Hr : replay_args (JObj d) = Ok None)
    by (unfold replay_args, py_get; now rewrite Hd).
  rewrite Hr, Hrun, Hc. repeat split.
Qed.

Lemma empty_reference_witness :
  exists verdict,
    fst (verify_run "t.py" (JObj [("events", JList [])]) 42 false
           (sample_world 1000000 write_script)) = Ok (JObj verdict)
    /\ dict_get verdict "ok" = Some (JBool false).
Proof.
  pose (r := run_instrumented "t.py" None 42 false (sample_world 1000000 write_script)).
  assert (H : exists m, fst r = Ok m) by (eexists; vm_compute; reflexivity).
  destruct H as [m Hm].
  assert (Hr : run_instrumented "t.py" None 42 false (sample_world 1000000 write_script)
               = (Ok m, snd r))
    by (rewrite <- Hm; apply surjective_pairing).
  destruct (empty_reference_never_verifies "t.py" [("events", JList [])] 42 false
              _ _ m eq_refl Hr) as (n & verdict & Hv & Hok & _).
  exists verdict. rewrite Hv. split; [reflexivity | exact Hok].
Defined.

(** ** The network shim when the network is allowed *)

(** X14. With the network allowed, each call on a shim socket over the
    native class is logged and passed on.  [connect] and [send] log before
    the real call: a [send] of a [str] is recorded as [net_send], with its
    length in characters and the hash of its encoding, although the real
    [send] then refuses it and nothing is sent.  [recv] logs after the
    real call, the length and hash of the data it actually returned. *)
Theorem allowed_network_calls_are_logged_and_passed_on :
  forall (w : World) (n : nat) (host port : json) (d : bytes) (s : str) (bufsize : Z),
    let cls := SocketShim_of true (native_socket n) in
    let rc := sock_connect cls host port w in
    let rb := sock_send cls (PBytes d) w in
    let rs := sock_send cls (PStr s) w in
    let rr := sock_recv cls bufsize w in
    (fst rc = Ok tt
     /\ events (logger (snd rc))
        = (events (logger w) ++ [new_event "net_connect" [("host", host); ("port", port)] w])%list
     /\ real_ops (snd rc) = (real_ops w ++ [r_connect host port])%list)
    /\ (fst rb = Ok (len d)
        /\ events (logger (snd rb))
           = (events (logger w)
              ++ [new_event "net_send"
                    [("bytes", JInt (len d)); ("sha256", JStr (sha256_hex d))] w])%list
        /\ real_ops (snd rb) = (real_ops w ++ [r_send d])%list)
    /\ (fst rs = Raised (TypeError "a bytes-like object is required, not str")
        /\ events (logger (snd rs))
           = (events (logger w)
              ++ [new_event "net_send"
                    [("bytes", JInt (len s)); ("sha256", JStr (sha256_hex (str_encode s)))]
                    w])%list
        /\ real_ops (snd rs) = real_ops w)
    /\ (exists data,
          fst (real_recv bufsize w) = Ok data
          /\ fst rr = Ok data
          /\ events (logger (snd rr))
             = (events (logger w)
                ++ [new_event "net_recv"
                      [("bytes", JInt (len data)); ("sha256", JStr (sha256_hex data))]
                      (snd (real_recv bufsize w))])%list
          /\ real_ops (snd rr) = (real_ops w ++ [r_recv bufsize])%list).
Proof.
  intros w n host port d s bufsize cls rc rb rs rr.
  split; [repeat split|]. split; [repeat split|]. split; [repeat split|].
  subst rr cls. unfold sock_recv, real_recv, bind, modify, get, ret, negb.
  cbn [fst snd net_in add_real_op real_ops].
  destruct (net_in w) as [|msg rest]; eexists; repeat split.
Qed.

(** ** The subprocess shim *)

(** X15. The subprocess shim only records: during a run with the network
    denied, [Popen] still starts the process.  It appends one
    [subprocess_spawn] event whose [cmd] is the argument list joined by
    spaces (or the single command), and hands the arguments unchanged to
    the real [Popen]. *)
Theorem spawn_is_logged_but_never_blocked :
  forall (target : str) (args_line : option str) (seed : Z) (w : World) (n : nat)
         (args : popen_args),
    subprocess_Popen w = native_Popen n ->
    let wp := prepared target args_line seed false w in
    let r := perform (c_Popen args) wp in
    let cmd := match args with ArgList l => join " " l | ArgScalar c => c end in
    fst r = Ok VNone
    /\ events (logger (snd r))
       = (events (logger wp) ++ [new_event "subprocess_spawn" [("cmd", JStr cmd)] wp])%list
    /\ real_ops (snd r) = (real_ops wp ++ [r_spawn args])%list.
Proof.
  intros target args_line seed w n args Hn wp r cmd.
  destruct (prepared_is_patched target args_line seed false w) as (_ & _ & Hp & _).
  cbv zeta in Hp. rewrite Hn in Hp.
  subst r cmd. revert Hp. subst wp.
  generalize (prepared target args_line seed false w). intros wp Hp.
  unfold perform, bind, get. rewrite Hp.
  destruct args as [l|c]; repeat split; cbn; try reflexivity.
Qed.

Lemma spawn_is_logged_witness :
  let wp := prepared "t.py" None 42 false (sample_world 1000000 Done) in
  let r := perform (c_Popen (ArgList ["curl"; "http://example.org"])) wp in
  fst r = Ok VNone
  /\ real_ops (snd r) = [r_spawn (ArgList ["curl"; "http://example.org"])]
  /\ dict_get (last_event (snd r)) "cmd" = Some (JStr "curl http://example.org").
Proof.
  intros wp r.
  destruct (spawn_is_logged_but_never_blocked "t.py" None 42
              (sample_world 1000000 Done) 0 (ArgList ["curl"; "http://example.org"])
              eq_refl) as (H1 & _ & H3).
  split; [exact H1|]. split; vm_compute; reflexivity.
Defined.

(** ** The [diff] command *)





